(** * bender-cpuinfo: CPU range codec, CPU registry and isolation check

    A shallow embedding of [src/bender-cpuinfo.py].

    - Python integers are unbounded and are modelled by [Z] (the
      interpreter's optional cap on the number of digits converted
      between [int] and [str] is not modelled).
    - Python strings are modelled by [string]; text is taken to be
      ASCII.
    - Exceptions are modelled by the [Raise] constructor of [result].
    - The module-level list [CPUS] is threaded explicitly through every
      function that reads or mutates it ([M]); what a function has
      written to [CPUS] before it raises stays written.
    - Files and commands are read outside the model: a function that
      reads a file takes the text of the file, [get_cpu_info_bender]
      takes the parsed document, and [check_isolation_parameters] takes
      the record [facts] of what the readers returned. *)

From Stdlib Require Import ZArith Lia Bool List Ascii String.
From stdpp Require Import base tactics option list numbers strings gmap sorting.

Local Open Scope string_scope.
Local Open Scope list_scope.
Local Open Scope Z_scope.

(** ** Exceptions *)

Inductive exn : Type :=
  | ValueError
  | AttributeError
  | TypeError
  | Exception_ (msg : string).

Inductive result (A : Type) : Type :=
  | Ok (a : A)
  | Raise (e : exn).

Arguments Ok {A} a.
Arguments Raise {A} e.

Definition rbind {A B : Type} (r : result A) (k : A -> result B) : result B :=
  match r with
  | Ok a => k a
  | Raise e => Raise e
  end.

Notation "'let!' x ':=' r 'in' k" := (rbind r (fun x => k))
  (at level 10, x name, r at level 100, k at level 200).

(** ** Python string primitives *)

Module PyStr.

Definition comma : ascii := ","%char.
Definition hyphen : ascii := "-"%char.
Definition newline : ascii := "010"%char.
Definition underscore : ascii := "_"%char.

Definition ascii_eqb (a b : ascii) : bool := Ascii.eqb a b.

(** [c in s] for a one-character [c]. *)
Fixpoint contains (c : ascii) (s : string) : bool :=
  match s with
  | EmptyString => false
  | String a s' => if ascii_eqb a c then true else contains c s'
  end.

(** [s.replace(c, '')] for a one-character [c]. *)
Fixpoint remove (c : ascii) (s : string) : string :=
  match s with
  | EmptyString => EmptyString
  | String a s' => if ascii_eqb a c then remove c s' else String a (remove c s')
  end.

(** [s.split(sep)] for a one-character [sep]: never empty, [''.split(',')]
    is [['']]. *)
Fixpoint split (sep : ascii) (s : string) : list string :=
  match s with
  | EmptyString => [EmptyString]
  | String a s' =>
      if ascii_eqb a sep then EmptyString :: split sep s'
      else match split sep s' with
           | [] => [String a EmptyString]
           | t :: ts => String a t :: ts
           end
  end.

(** [sep.join(ls)]. *)
Definition join (sep : string) (ls : list string) : string :=
  String.concat sep ls.

(** The whitespace that [int] skips around an ASCII literal: tab, line
    feed, vertical tab, form feed, carriage return and space. *)
Definition is_space (c : ascii) : bool :=
  let n := nat_of_ascii c in
  ((9 <=? n)%nat && (n <=? 13)%nat) || (n =? 32)%nat.

Definition is_digit (c : ascii) : bool :=
  let n := nat_of_ascii c in
  (48 <=? n)%nat && (n <=? 57)%nat.

Definition digit_val (c : ascii) : Z := Z.of_nat (nat_of_ascii c) - 48.

Definition digit_char (d : Z) : ascii := ascii_of_nat (Z.to_nat (48 + d)).

Fixpoint lstrip (s : string) : string :=
  match s with
  | EmptyString => EmptyString
  | String a s' => if is_space a then lstrip s' else s
  end.

Fixpoint rstrip (s : string) : string :=
  match s with
  | EmptyString => EmptyString
  | String a s' =>
      match rstrip s' with
      | EmptyString => if is_space a then EmptyString else String a EmptyString
      | r => String a r
      end
  end.

Definition strip (s : string) : string := rstrip (lstrip s).

(** The digit part of an integer literal: decimal digits, with single
    underscores allowed between digits.  [prev] tells whether the
    previous character was a digit. *)
Fixpoint parse_digits (acc : Z) (prev : bool) (s : string) : option Z :=
  match s with
  | EmptyString => if prev then Some acc else None
  | String a s' =>
      if is_digit a then parse_digits (acc * 10 + digit_val a) true s'
      else if ascii_eqb a underscore && prev then parse_digits acc false s'
      else None
  end.

(** [int(s)] on a string: surrounding whitespace is dropped, an optional
    sign is read, the rest must be a digit part. *)
Definition int (s : string) : result Z :=
  let body := strip s in
  let parsed :=
    match body with
    | String c s' =>
        if ascii_eqb c "+" then parse_digits 0 false s'
        else if ascii_eqb c "-" then Z.opp <$> parse_digits 0 false s'
        else parse_digits 0 false body
    | EmptyString => None
    end in
  match parsed with
  | Some n => Ok n
  | None => Raise ValueError
  end.

(** [str(n)] for [n >= 0], most significant digit first.  [fuel] bounds
    the number of digits. *)
Fixpoint str_digits (fuel : nat) (n : Z) (acc : string) : string :=
  match fuel with
  | O => acc
  | S f =>
      let acc' := String (digit_char (n mod 10)) acc in
      if n <? 10 then acc' else str_digits f (n / 10) acc'
  end.

Definition str_nonneg (n : Z) : string :=
  str_digits (S (Z.to_nat (Z.log2 n))) n EmptyString.

(** [str(n)] on an integer. *)
Definition str (n : Z) : string :=
  if n <? 0 then String hyphen (str_nonneg (- n)) else str_nonneg n.

(** [range(a, b)] as a list. *)
Definition range (a b : Z) : list Z := seqZ a (b - a).

End PyStr.

(** ** Range codec: [convert_to_ranges] and [cpu_sorted] *)

(** The loop of [convert_to_ranges]: [start] is the first number of the
    current run, [prev] is [numbers[i - 1]], [rest] is [numbers[i:]]. *)
Fixpoint ranges_loop (start prev : Z) (rest : list Z) (ranges : list (Z * Z))
  : list (Z * Z) :=
  match rest with
  | [] => ranges ++ [(start, prev)]
  | x :: rest' =>
      if negb (x =? prev + 1)
      then ranges_loop x x rest' (ranges ++ [(start, prev)])
      else ranges_loop start x rest' ranges
  end.

Definition format_range (r : Z * Z) : string :=
  let '(start, end_) := r in
  if negb (start =? end_)
  then PyStr.str start +:+ "-" +:+ PyStr.str end_
  else PyStr.str start.

Definition convert_to_ranges (numbers : list Z) : string :=
  match numbers with
  | [] => ""
  | n0 :: rest => PyStr.join "," (map format_range (ranges_loop n0 n0 rest []))
  end.

(** One iteration of the loop of [cpu_sorted].  Unpacking
    [start, end = map(int, ...)] raises [ValueError] both when a part is
    not an integer literal and when there are not exactly two parts. *)
Definition cpu_sorted_token (res : list Z) (split_data : string)
  : result (list Z) :=
  if PyStr.contains PyStr.hyphen split_data then
    match PyStr.split PyStr.hyphen split_data with
    | [a; b] =>
        let! start := PyStr.int a in
        let! end_ := PyStr.int b in
        Ok (res ++ PyStr.range start (end_ + 1))
    | _ => Raise ValueError
    end
  else
    let! n := PyStr.int split_data in
    Ok (res ++ [n]).

Fixpoint cpu_sorted_loop (tokens : list string) (res : list Z)
  : result (list Z) :=
  match tokens with
  | [] => Ok res
  | split_data :: tokens' =>
      let! res' := cpu_sorted_token res split_data in
      cpu_sorted_loop tokens' res'
  end.

Definition cpu_sorted (data_str : string) : result (list Z) :=
  cpu_sorted_loop
    (PyStr.split PyStr.comma (PyStr.remove PyStr.newline data_str)) [].

(** ** The [CpuInfo] class *)

(** A value stored in an instance attribute. *)
Inductive value : Type :=
  | VNone
  | VInt (n : Z)
  | VBool (b : bool)
  | VList (l : list string).

Definition truthy (v : value) : bool :=
  match v with
  | VNone => false
  | VInt n => negb (n =? 0)
  | VBool b => b
  | VList l => negb (Nat.eqb (length l) 0)
  end.

(** [cpu_id] and [isolated] are the two scalar attributes; every other
    attribute set by [__init__] holds a list and is kept, in the order
    of [__dict__], in [lists]. *)
Record CpuInfo : Type := mkCpuInfo {
  cpu_id : Z;
  isolated : bool;
  lists : list (string * list string)
}.

Definition list_attribute_names : list string :=
  [ "net_cpu"; "TrashCPU"; "AllRobotsThCPU"; "RemoteFormulaCPU";
    "GatewaysDefault"; "RobotsDefault"; "RobotsDefault2"; "Formula";
    "FormulaListDefault"; "UdpSendCores"; "UdpReceiveCores";
    "ClickHouseCores"; "Kafka"; "GlassNode"; "DumperCPU"; "Isolated";
    "ServicesCPU"; "GatewaysOTC"; "RobotsNode1"; "RobotsNode2" ].

(** [CpuInfo.__init__]. *)
Definition CpuInfo_init (id_cpu : Z) : CpuInfo :=
  {| cpu_id := id_cpu;
     isolated := false;
     lists := map (fun name => (name, [])) list_attribute_names |}.

Definition reserved (attr_name : string) : bool :=
  bool_decide (attr_name = "cpu_id") || bool_decide (attr_name = "isolated").

Fixpoint assoc_get {A : Type} (k : string) (l : list (string * A)) : option A :=
  match l with
  | [] => None
  | (k', v) :: l' => if bool_decide (k' = k) then Some v else assoc_get k l'
  end.

(** [d[k] = v] on a dictionary kept in insertion order. *)
Fixpoint assoc_set {A : Type} (k : string) (v : A) (l : list (string * A))
  : list (string * A) :=
  match l with
  | [] => [(k, v)]
  | (k', v') :: l' =>
      if bool_decide (k' = k) then (k', v) :: l' else (k', v') :: assoc_set k v l'
  end.

(** [self.__dict__.items()]. *)
Definition dict_items (self : CpuInfo) : list (string * value) :=
  ("cpu_id", VInt (cpu_id self)) :: ("isolated", VBool (isolated self))
  :: map (fun kv => (kv.1, VList kv.2)) (lists self).

(** [getattr(self, attr_name)], as [update_attribute] sees it.  A name
    that is not in [__dict__] is looked up on the class, where
    [__doc__] is [None]; every other name of the class is bound to an
    object that is true and has no [append], so that [update_attribute]
    raises [AttributeError] for it as it does for a name that is bound
    nowhere. *)
Definition getattr (self : CpuInfo) (attr_name : string) : result value :=
  match assoc_get attr_name (dict_items self) with
  | Some v => Ok v
  | None =>
      if bool_decide (attr_name = "__doc__") then Ok VNone
      else Raise AttributeError
  end.

(** [setattr(self, attr_name, l)] for a name other than [cpu_id] and
    [isolated]. *)
Definition setattr_list (self : CpuInfo) (attr_name : string) (l : list string)
  : CpuInfo :=
  {| cpu_id := cpu_id self;
     isolated := isolated self;
     lists := assoc_set attr_name l (lists self) |}.

Definition cpu_usage (self : CpuInfo) : list string :=
  filter (fun parameter => negb (reserved parameter) = true)
         (map fst (dict_items self)).

Definition update_attribute (self : CpuInfo) (attr_name attr_value : string)
  : result CpuInfo :=
  if negb (reserved attr_name) then
    let! v := getattr self attr_name in
    if truthy v then
      match v with
      | VList l => Ok (setattr_list self attr_name (l ++ [attr_value]))
      | _ => Raise AttributeError
      end
    else Ok (setattr_list self attr_name [attr_value])
  else
    Raise (Exception_ ("update_attribute cant be used for " +:+ attr_name)).

Definition human_show (self : CpuInfo) : list (string * value) :=
  filter (fun kv => bool_decide (kv.1 = "cpu_id") || truthy kv.2 = true)
         (dict_items self).

Fixpoint check_free_loop (items : list (string * value)) : bool :=
  match items with
  | [] => true
  | (parameter, v) :: items' =>
      if truthy v
         && negb (bool_decide (parameter ∈ ["isolated"; "cpu_id"; "net_cpu"]))
      then false
      else check_free_loop items'
  end.

Definition check_free_bender_cpu (self : CpuInfo) : bool :=
  check_free_loop (dict_items self).

(** ** The registry [CPUS] and the functions that mutate it *)

(** A computation over the global list [CPUS].  The list that is
    returned is the state of [CPUS] when the computation ends, also when
    it ends by raising: updates made before the exception stay. *)
Definition M (A : Type) : Type := list CpuInfo -> list CpuInfo * result A.

Definition mret {A : Type} (a : A) : M A := fun CPUS => (CPUS, Ok a).

Definition mraise {A : Type} (e : exn) : M A := fun CPUS => (CPUS, Raise e).

Definition mbind {A B : Type} (m : M A) (k : A -> M B) : M B :=
  fun CPUS =>
    match m CPUS with
    | (CPUS', Ok a) => k a CPUS'
    | (CPUS', Raise e) => (CPUS', Raise e)
    end.

Definition mlift {A : Type} (r : result A) : M A := fun CPUS => (CPUS, r).

Notation "'do!' x ':=' m 'in' k" := (mbind m (fun x => k))
  (at level 10, x name, m at level 100, k at level 200).

(** [get_system_isolated_cpus], on the text of
    [/sys/devices/system/cpu/isolated]. *)
Definition get_system_isolated_cpus (file_text : string)
  : result (option (list Z)) :=
  let data := PyStr.remove PyStr.newline file_text in
  if negb (bool_decide (data = "")) then
    let! isolated_system_cpu := cpu_sorted data in
    Ok (Some isolated_system_cpu)
  else Ok None.

Definition list_truthy {A : Type} (l : option (list A)) : bool :=
  match l with
  | Some (_ :: _) => true
  | _ => false
  end.

(** [get_isolated_cpu], on the text of the same file. *)
Definition get_isolated_cpu (file_text : string) : M unit :=
  fun CPUS =>
    match get_system_isolated_cpus file_text with
    | Raise e => (CPUS, Raise e)
    | Ok sys_isol_cpus =>
        if list_truthy sys_isol_cpus then
          (map (fun cpu =>
                  if bool_decide (cpu_id cpu ∈ default [] sys_isol_cpus)
                  then {| cpu_id := cpu_id cpu; isolated := true;
                          lists := lists cpu |}
                  else cpu) CPUS, Ok tt)
        else (CPUS, Ok tt)
    end.

(** [get_all_cpus], on the text of [/sys/devices/system/cpu/online]. *)
Definition get_all_cpus (file_text : string) : result (list CpuInfo) :=
  let! ids := cpu_sorted file_text in
  Ok (map CpuInfo_init ids).

(** [get_cpu_by_id]: the first entry with that id, with its position in
    [CPUS], or [None]. *)
Definition get_cpu_by_id (cid : Z) (CPUS : list CpuInfo)
  : option (nat * CpuInfo) :=
  list_find (fun cpu => cpu_id cpu = cid) CPUS.

(** An element of [cores_list : list[int|str]]. *)
Inductive core : Type :=
  | CInt (n : Z)
  | CStr (s : string).

Definition int_of_core (c : core) : result Z :=
  match c with
  | CInt n => Ok n
  | CStr s => PyStr.int s
  end.

Definition str_of_core (c : core) : string :=
  match c with
  | CInt n => PyStr.str n
  | CStr s => s
  end.

Definition doesnt_exist (upd_param : string) (c : core) : string :=
  upd_param +:+ " cpu " +:+ str_of_core c +:+ " doesnt exist".

Fixpoint update_cpus_loop (cores_list : list core)
    (upd_param upd_instance : string) (update_errors : list string)
  : M (list string) :=
  match cores_list with
  | [] => mret update_errors
  | c :: cores_list' =>
      do! cid := mlift (int_of_core c) in
      fun CPUS =>
        match get_cpu_by_id cid CPUS with
        | None =>
            update_cpus_loop cores_list' upd_param upd_instance
              (update_errors ++ [doesnt_exist upd_param c]) CPUS
        | Some (i, cpu_for_update) =>
            match update_attribute cpu_for_update upd_param upd_instance with
            | Raise e => (CPUS, Raise e)
            | Ok cpu' =>
                update_cpus_loop cores_list' upd_param upd_instance
                  update_errors (<[i := cpu']> CPUS)
            end
        end
  end.

Definition update_cpus (cores_list : list core)
    (upd_param upd_instance : string) : M (list string) :=
  update_cpus_loop cores_list upd_param upd_instance [].

(** ** The instance configuration: [Runtime.xml] *)

(** An element of the parsed document, as [lxml.etree] exposes it. *)
#[local] Unset Elimination Schemes.
Inductive xml : Type :=
  | Element (tag : string) (attrib : list (string * string))
            (children : list xml).
#[local] Set Elimination Schemes.

Definition xml_tag (n : xml) : string :=
  match n with Element tag _ _ => tag end.

Definition xml_children (n : xml) : list xml :=
  match n with Element _ _ children => children end.

(** [node.get(name)]. *)
Definition xml_get (n : xml) (name : string) : option string :=
  match n with Element _ attrib _ => assoc_get name attrib end.

(** [node.findall(tag)]: the children with that tag, in document order. *)
Definition findall (n : xml) (tag : string) : list xml :=
  filter (fun c => xml_tag c = tag) (xml_children n).

(** [node.find(tag)]: the first child with that tag. *)
Definition find (n : xml) (tag : string) : option xml :=
  head (findall n tag).

(** The nodes below [n] selected by the steps whose reversal is
    [rsteps]; [anc] holds the tags of the ancestors of [n] below the
    context node, nearest first. *)
Fixpoint xpath_walk (rsteps anc : list string) (n : xml) : list xml :=
  match n with
  | Element tag _ children =>
      (if bool_decide (rsteps `prefix_of` tag :: anc) then [n] else [])
      ++ flat_map (xpath_walk rsteps (tag :: anc)) children
  end.

(** [root.xpath(".//" + "/".join(steps))], in document order. *)
Definition xpath (root : xml) (steps : list string) : list xml :=
  flat_map (xpath_walk (rev steps) []) (xml_children root).

(** [update_cpus(node.get("Cores").split(','), upd_param, instance)]. *)
Definition update_from (node : xml) (upd_param instance : string)
  : M (list string) :=
  match xml_get node "Cores" with
  | None => mraise AttributeError
  | Some cores =>
      update_cpus (map CStr (PyStr.split PyStr.comma cores)) upd_param instance
  end.

(** [update_cpus] when [upd_param] is [None] (a [CPUAlias] without
    [Name]): the message is formatted with [None], and [getattr] with
    a name that is not a string raises [TypeError]. *)
Fixpoint update_cpus_unnamed (cores_list : list core)
    (update_errors : list string) : M (list string) :=
  match cores_list with
  | [] => mret update_errors
  | c :: cores_list' =>
      do! cid := mlift (int_of_core c) in
      fun CPUS =>
        match get_cpu_by_id cid CPUS with
        | None =>
            update_cpus_unnamed cores_list'
              (update_errors ++ [doesnt_exist "None" c]) CPUS
        | Some _ => (CPUS, Raise TypeError)
        end
  end.

Definition parameters_list : list string :=
  ["AllRobotsThCPU"; "TrashCPU"; "RemoteFormulaCPU"; "DumperCPU"].

Fixpoint parameters_loop (root : xml) (instance : string)
    (parameters : list string) (err_cpu : list string) : M (list string) :=
  match parameters with
  | [] => mret err_cpu
  | parameter :: parameters' =>
      match find root parameter with
      | None => parameters_loop root instance parameters' err_cpu
      | Some parameter_xml_obj =>
          do! errs := update_from parameter_xml_obj parameter instance in
          parameters_loop root instance parameters' (err_cpu ++ errs)
      end
  end.

Fixpoint alias_loop (instance : string) (cpu_aliases : list xml)
    (err_cpu : list string) : M (list string) :=
  match cpu_aliases with
  | [] => mret err_cpu
  | cpu_alias :: cpu_aliases' =>
      match xml_get cpu_alias "Cores" with
      | None => mraise AttributeError
      | Some cores =>
          let cores_list := map CStr (PyStr.split PyStr.comma cores) in
          do! errs :=
            match xml_get cpu_alias "Name" with
            | Some name => update_cpus cores_list name instance
            | None => update_cpus_unnamed cores_list []
            end in
          alias_loop instance cpu_aliases' (err_cpu ++ errs)
      end
  end.

(** The roles looked up with [xpath]: the steps of the path and the
    attribute that is updated. *)
Definition udp_params : list (list string * string) :=
  map (fun udp_type => (["Udp"; udp_type; "CPU"], "Udp" +:+ udp_type +:+ "Cores"))
      ["Send"; "Receive"].

Definition special_params : list (list string * string) :=
  [ (["TSDatabases"; "TSDB"; "Threads"], "ClickHouseCores");
    (["DealsStream"; "Cpu"], "Kafka");
    (["ServicesCPU"], "ServicesCPU") ].

(** The body of the two loops over [xpath] results. *)
Definition xpath_step (root : xml) (instance : string)
    (param : list string * string) : M (list string) :=
  let param_info := xpath root param.1 in
  match param_info with
  | [node] => update_from node param.2 instance
  | _ => mret []
  end.

Fixpoint xpath_loop (root : xml) (instance : string)
    (params : list (list string * string)) (err_cpu : list string)
  : M (list string) :=
  match params with
  | [] => mret err_cpu
  | param :: params' =>
      do! errs := xpath_step root instance param in
      xpath_loop root instance params' (err_cpu ++ errs)
  end.

(** The error list [err_cpu] at the end of [get_cpu_info_bender]. *)
Definition bender_err_cpu (instance : string) (root : xml) : M (list string) :=
  do! err_cpu := parameters_loop root instance parameters_list [] in
  do! err_cpu := alias_loop instance (findall root "CPUAlias") err_cpu in
  do! err_cpu := xpath_loop root instance udp_params err_cpu in
  xpath_loop root instance special_params err_cpu.

(** [repr] of a string and of a list of strings. *)
Module PyRepr.

Definition squote : ascii := "039"%char.
Definition dquote : ascii := "034"%char.
Definition backslash : ascii := "092"%char.

Definition hex_digit (n : nat) : ascii :=
  if (n <? 10)%nat then ascii_of_nat (48 + n) else ascii_of_nat (87 + n).

Definition escape (quote c : ascii) : string :=
  let n := nat_of_ascii c in
  if PyStr.ascii_eqb c backslash then String backslash (String backslash "")
  else if PyStr.ascii_eqb c quote then String backslash (String quote "")
  else if (n =? 9)%nat then String backslash "t"
  else if (n =? 10)%nat then String backslash "n"
  else if (n =? 13)%nat then String backslash "r"
  else if (n <? 32)%nat || (n =? 127)%nat
       then String backslash
              (String "x" (String (hex_digit (n / 16))
                                  (String (hex_digit (n mod 16)) "")))
  else String c "".

Fixpoint escape_all (quote : ascii) (s : string) : string :=
  match s with
  | EmptyString => EmptyString
  | String c s' => escape quote c +:+ escape_all quote s'
  end.

Definition repr_str (s : string) : string :=
  let quote :=
    if PyStr.contains squote s && negb (PyStr.contains dquote s)
    then dquote else squote in
  String quote (escape_all quote s) +:+ String quote "".

Definition repr_list (l : list string) : string :=
  "[" +:+ PyStr.join ", " (map repr_str l) +:+ "]".

End PyRepr.

(** [get_cpu_info_bender], on the parsed [Runtime.xml] of [instance]. *)
Definition get_cpu_info_bender (instance : string) (root : xml)
  : M (option string) :=
  do! err_cpu := bender_err_cpu instance root in
  match err_cpu with
  | [] => mret None
  | _ => mret (Some (instance +:+ ": " +:+ PyRepr.repr_list err_cpu))
  end.

(** [get_instance_info]: for every role, the ids of the CPUs whose list
    for that role holds [bs].  The dictionary is kept as a finite map
    (the order of its keys is not modelled). *)
Definition instance_info_add (bs : string) (cid : Z)
    (acc : gmap string (list Z)) (item : string * value)
  : gmap string (list Z) :=
  match item.2 with
  | VList l =>
      if bool_decide (bs ∈ l) then
        match acc !! item.1 with
        | Some (x :: ids) => <[item.1 := (x :: ids) ++ [cid]]> acc
        | _ => <[item.1 := [cid]]> acc
        end
      else acc
  | _ => acc
  end.

Definition get_instance_info (bs : string) (CPUS : list CpuInfo)
  : string * gmap string (list Z) :=
  (bs, fold_left (fun acc cpu =>
                    fold_left (instance_info_add bs (cpu_id cpu))
                              (human_show cpu) acc) CPUS ∅).

Fixpoint info_errors_loop (instances : list (string * xml))
    (cpus_err : list string) : M (list string) :=
  match instances with
  | [] => mret cpus_err
  | (instance, root) :: instances' =>
      do! cpu_errors := get_cpu_info_bender instance root in
      match cpu_errors with
      | Some e => info_errors_loop instances' (cpus_err ++ [e])
      | None => info_errors_loop instances' cpus_err
      end
  end.

Record cpus_info : Type := mkCpusInfo {
  instance_info : gmap string (gmap string (list Z));
  cpu_error : list string
}.

(** [get_info_about_cpus], on the instances found by [find_binstances]
    and the parsed [Runtime.xml] of each. *)
Definition get_info_about_cpus (instances : list (string * xml)) : M cpus_info :=
  do! cpus_err := info_errors_loop instances [] in
  fun CPUS =>
    let res_instances :=
      fold_left (fun acc inst =>
                   let '(bs, info) := get_instance_info inst.1 CPUS in
                   <[bs := info]> acc) instances ∅ in
    (CPUS, Ok {| instance_info := res_instances; cpu_error := cpus_err |}).

(** ** Boot parameters *)

(** A value of a parameter dictionary. *)
Inductive pval : Type :=
  | PNone
  | PTrue
  | PStr (s : string)
  | PList (l : list Z).

Global Instance pval_eq_dec : EqDecision pval.
Proof. solve_decision. Defined.

Definition dict_get (d : gmap string pval) (k : string) : pval :=
  default PNone (d !! k).

Definition refactor_parameter (res : gmap string pval) (parameter : string)
  : result (gmap string pval) :=
  if negb (bool_decide (parameter = "")) then
    if PyStr.contains "=" parameter then
      let p := PyStr.split "=" parameter in
      let p0 := default "" (p !! 0%nat) in
      let p1 := default "" (p !! 1%nat) in
      if bool_decide (p0 = "isolcpus") then
        if negb (bool_decide (p1 = "")) then
          let! cpus := cpu_sorted p1 in
          Ok (<["isolcpus" := PList cpus]> res)
        else Ok (<["isolcpus" := PNone]> res)
      else if bool_decide (p0 = "cgroup_disable") then
        Ok (<["cgroup_disable_" +:+ p1 := PTrue]> res)
      else Ok (<[p0 := PStr p1]> res)
    else Ok (<[parameter := PTrue]> res)
  else Ok res.

Fixpoint refactor_loop (parameters : list string) (res : gmap string pval)
  : result (gmap string pval) :=
  match parameters with
  | [] => Ok res
  | parameter :: parameters' =>
      let! res' := refactor_parameter res parameter in
      refactor_loop parameters' res'
  end.

Definition refactor_parameters (data : string) : result (gmap string pval) :=
  refactor_loop (PyStr.split " " data) ∅.



Definition REQ_PARAM_FOR_GR : list (string * list (string * pval)) :=
  [ ("default",
     [ ("intel_idle.max_cstate", PStr "0"); ("processor.max_cstate", PStr "0");
       ("idle", PStr "poll"); ("mitigations", PStr "off");
       ("cgroup_disable_cpu", PTrue); ("cgroup_disable_memory", PTrue);
       ("nosmt", PTrue) ]);
    ("trade_roxana",
     [ ("intel_idle.max_cstate", PStr "0"); ("processor.max_cstate", PStr "0");
       ("idle", PStr "poll"); ("mitigations", PStr "off"); ("nosmt", PTrue) ]) ].

Definition check_parameters (param_dict : gmap string pval)
    (req_param_dict : option (list (string * pval))) : option string :=
  let req_parameters :=
    match req_param_dict with
    | Some (kv :: kvs) => kv :: kvs
    | _ => default [] (assoc_get "default" REQ_PARAM_FOR_GR)
    end in
  let err_parameters :=
    map fst (filter (fun kv => kv.2 ≠ dict_get param_dict kv.1) req_parameters) in
  match err_parameters with
  | [] => None
  | _ => Some ("Invalid parameters: " +:+ PyStr.join ", " err_parameters)
  end.

(** [check_hypertrading], on the text of
    [/sys/devices/system/cpu/smt/active]. *)
Definition check_hypertrading (file_text : string) : result bool :=
  let data := PyStr.remove PyStr.newline file_text in
  if bool_decide (data = "1") then Ok true
  else if bool_decide (data = "0") then Ok false
  else Raise (Exception_
    ("'/sys/devices/system/cpu/smt/active' - have unsupported value " +:+ data)).

(** ** The isolation check *)

(** What the system fact readers return during one run. *)
Record facts : Type := mkFacts {
  grub : option (gmap string pval);          (* get_grub_parameters() *)
  cmdline : option (gmap string pval);       (* get_cmdline_parameters() *)
  system : option (list Z);                  (* get_system_isolated_cpus() *)
  instances : list (string * xml);           (* find_binstances(.., INCLUDE_DEAD_BS) *)
  running_instances : list string;           (* find_binstances() *)
  cpu_count_logical : option Z;              (* psutil.cpu_count(logical=True) *)
  cpu_count_physical : option Z;             (* psutil.cpu_count(logical=False) *)
  smt_active : string;                       (* /sys/devices/system/cpu/smt/active *)
  cmdb_primary_gr : string                   (* get_cmdb_primery_gr() *)
}.

Definition pval_of_cpus (cpus : option (list Z)) : pval :=
  match cpus with
  | Some l => PList l
  | None => PNone
  end.

Definition msg_invalid_cpus (invalid_cpus : list string) : string :=
  "Invalid cpus: " +:+ PyStr.join " " invalid_cpus.

Definition msg_not_eq_grub : string :=
  "'Isolated cpu /sys/devices/system/cpu/isolated' not eq '/etc/default/grub'".

Definition msg_not_eq_cmdline : string :=
  "'Isolated cpu /sys/devices/system/cpu/isolated' not eq '/proc/cmdline'".

Definition msg_no_isolated : string :=
  "The server does not have isolated cpus".

Definition msg_cpu_count : string :=
  "Hyperthreading enable, the logical cpus number is not equal to the physical cpus number".

Definition msg_smt_active : string :=
  "Hyperthreading enable, look '/sys/devices/system/cpu/smt/active'".

Definition when (b : bool) (d : string) : list string :=
  if b then [d] else [].

Definition opt_list (prefix : string) (o : option string) : list string :=
  match o with
  | Some s => [prefix +:+ s]
  | None => []
  end.

(** The descriptions added to [err_check], in order, given the result
    of [get_info_about_cpus].  Each [err_check += d + '; '] of the
    source adds one element [d]. *)
Definition descriptions (f : facts) (bs_cpu_instance_info : cpus_info)
  : result (list string) :=
  let invalid :=
    if negb (bool_decide (instance_info bs_cpu_instance_info = ∅))
    then match cpu_error bs_cpu_instance_info with
         | [] => []
         | invalid_cpus => [msg_invalid_cpus invalid_cpus]
         end
    else [] in
  match grub f with
  | None => Raise AttributeError
  | Some grub_d =>
      let d_grub :=
        when (negb (bool_decide
                (pval_of_cpus (system f) = dict_get grub_d "isolcpus")))
             msg_not_eq_grub in
      match cmdline f with
      | None => Raise AttributeError
      | Some cmdline_d =>
          let d_cmdline :=
            when (negb (bool_decide
                    (pval_of_cpus (system f) = dict_get cmdline_d "isolcpus")))
                 msg_not_eq_cmdline in
          let d_none := when (negb (list_truthy (system f))) msg_no_isolated in
          let d_count :=
            when (negb (bool_decide
                    (cpu_count_logical f = cpu_count_physical f)))
                 msg_cpu_count in
          let! ht := check_hypertrading (smt_active f) in
          let d_smt := when ht msg_smt_active in
          let req_param_for_check :=
            assoc_get (cmdb_primary_gr f) REQ_PARAM_FOR_GR in
          let d_cmdline_check :=
            opt_list "Cmdline " (check_parameters cmdline_d req_param_for_check) in
          let d_grub_check :=
            opt_list "Grub " (check_parameters grub_d req_param_for_check) in
          Ok (invalid ++ d_grub ++ d_cmdline ++ d_none ++ d_count ++ d_smt
              ++ d_cmdline_check ++ d_grub_check)
      end
  end.

(** [s.replace(old, new)] for a non-empty [old]; [skip] counts the
    characters of a match that are still to be passed over. *)
Fixpoint replace_from (old new : string) (skip : nat) (s : string) : string :=
  match s with
  | EmptyString => EmptyString
  | String c s' =>
      match skip with
      | S k => replace_from old new k s'
      | O =>
          if String.prefix old s
          then new +:+ replace_from old new (String.length old - 1) s'
          else String c (replace_from old new 0 s')
      end
  end.

Definition render (zabbix : bool) (ds : list string) : string :=
  let err_check := String.concat "" (map (fun d => d +:+ "; ") ds) in
  if negb (bool_decide (err_check = "")) then
    let err_check := String.substring 0 (String.length err_check - 2) err_check in
    if zabbix then "Error: " +:+ err_check
    else replace_from "; " (String PyStr.newline "") 0 err_check
  else "OK".

Definition check_group (f : facts) (groups : list string) : bool :=
  bool_decide (cmdb_primary_gr f ∈ groups).

Definition check_isolation_parameters (zabbix : bool) (f : facts) : M string :=
  if zabbix && check_group f ["trade_qb_test"; "workstation_dev"] then mret "OK"
  else if zabbix && Nat.eqb (length (running_instances f)) 0 then mret "OK"
  else
    do! bs_cpu_instance_info := get_info_about_cpus (instances f) in
    do! ds := mlift (descriptions f bs_cpu_instance_info) in
    mret (render zabbix ds).

(** ** Views of an entry and of the registry *)

(** [f"{value}"] for the value of an attribute. *)
Definition format_value (v : value) : string :=
  match v with
  | VNone => "None"
  | VInt n => PyStr.str n
  | VBool b => if b then "True" else "False"
  | VList l => PyStr.join "," l
  end.

(** The dictionary that [zabbix_macros_view] returns: its two possible
    keys. *)
Record zabbix_macros : Type := mkMacros {
  macro_cpu_id : option value;       (* '{#CPU.ID}' *)
  macro_cpu_usage : option string    (* '{#CPU.USAGE}' *)
}.

Fixpoint zabbix_macros_loop (items : list (string * value))
    (output : zabbix_macros) (parameters_combined : list string)
  : zabbix_macros :=
  match items with
  | [] => output
  | (parameter, v) :: items' =>
      if truthy v then
        if bool_decide (parameter = "cpu_id") then
          zabbix_macros_loop items'
            {| macro_cpu_id := Some v;
               macro_cpu_usage := macro_cpu_usage output |}
            parameters_combined
        else if negb (bool_decide (parameter ∈ ["isolated"; "net_cpu"])) then
          let parameters_combined' :=
            parameters_combined ++ [parameter +:+ ":" +:+ format_value v] in
          zabbix_macros_loop items'
            {| macro_cpu_id := macro_cpu_id output;
               macro_cpu_usage := Some (PyStr.join ";" parameters_combined') |}
            parameters_combined'
        else zabbix_macros_loop items' output parameters_combined
      else zabbix_macros_loop items' output parameters_combined
  end.

Definition zabbix_macros_view (self : CpuInfo) : zabbix_macros :=
  zabbix_macros_loop (dict_items self)
    {| macro_cpu_id := None; macro_cpu_usage := None |} [].

(** [s.replace(c, d)] for one-character [c] and [d]. *)
Fixpoint replace_char (c d : ascii) (s : string) : string :=
  match s with
  | EmptyString => EmptyString
  | String a s' =>
      String (if PyStr.ascii_eqb a c then d else a) (replace_char c d s')
  end.

Definition tab : ascii := "009"%char.
Definition space : ascii := " "%char.

Definition safe_zabbix_msg (msg : string) : string :=
  let msg := PyStr.remove PyRepr.backslash msg in
  let msg := PyStr.remove PyRepr.squote msg in
  let msg := PyStr.remove PyRepr.dquote msg in
  let msg := replace_char PyStr.newline space msg in
  let msg := replace_from (String PyRepr.backslash "n") " " 0 msg in
  let msg := replace_char "{" space msg in
  let msg := replace_char "}" space msg in
  let msg := replace_char tab space msg in
  String.substring 0 1024 msg.

(** ** Network interrupt affinity *)

(** The loop of [get_network_cpu] over the interrupt lines of one
    interface; [texts] holds what was read from [smp_affinity_list] for
    each line of [/proc/interrupts] that names the interface. *)
Fixpoint affinity_loop (texts : list string) (net_cpus : list Z)
  : result (list Z) :=
  match texts with
  | [] => Ok net_cpus
  | data :: texts' =>
      let! cpus := cpu_sorted data in
      affinity_loop texts' (net_cpus ++ cpus)
  end.

(** [sorted(set(l))] on integers. *)
Definition sorted_set (l : list Z) : list Z := merge_sort Z.le (remove_dups l).

Definition nonempty {A : Type} (l : list A) : bool :=
  match l with
  | [] => false
  | _ :: _ => true
  end.

(** [get_network_cpu], on the interfaces and, for each, the affinity
    lists of its interrupts.  What [update_cpus] returns is dropped. *)
Fixpoint get_network_cpu (interfaces : list (string * list string)) : M unit :=
  match interfaces with
  | [] => mret tt
  | (interface, texts) :: interfaces' =>
      do! net_cpus := mlift (affinity_loop texts []) in
      do! done_ :=
        (if nonempty net_cpus then
           let net_cpus_sorted := sorted_set net_cpus in
           if nonempty net_cpus_sorted then
             do! dropped :=
               update_cpus (map CInt net_cpus_sorted) "net_cpu" interface in
             mret tt
           else mret tt
         else mret tt) in
      get_network_cpu interfaces'
  end.

(** ** Definitions used to state the properties *)

Fixpoint string_forall (P : ascii -> bool) (s : string) : bool :=
  match s with
  | EmptyString => true
  | String a s' => P a && string_forall P s'
  end.


(** The numbers of a list of inclusive ranges. *)
Definition expand_ranges (rs : list (Z * Z)) : list Z :=
  flat_map (fun r => seqZ r.1 (r.2 + 1 - r.1)) rs.

(** An inclusive range of non-negative numbers that is not empty. *)
Definition range_ok (r : Z * Z) : Prop := 0 <= r.1 <= r.2.

(** Runs that are not empty and where no run continues the one before. *)
Fixpoint separate_runs (prev : option Z) (rs : list (Z * Z)) : Prop :=
  match rs with
  | [] => True
  | (s, e) :: rs' =>
      s <= e /\ prev <> Some (s - 1) /\ separate_runs (Some e) rs'
  end.

(** Strictly ascending lists. *)
Fixpoint ascending (l : list Z) : Prop :=
  match l with
  | [] => True
  | x :: l' => match l' with
               | [] => True
               | y :: _ => x < y
               end /\ ascending l'
  end.

(** [int(s)] returns. *)
Definition is_int (s : string) : bool :=
  match PyStr.int s with
  | Ok _ => true
  | Raise _ => false
  end.

(** A token that [cpu_sorted] accepts: one integer literal, or two
    integer literals joined by one hyphen. *)
Definition token_ok (tok : string) : bool :=
  match PyStr.split PyStr.hyphen tok with
  | [a] => is_int a
  | [a; b] => is_int a && is_int b
  | _ => false
  end.

Definition tokens (data_str : string) : list string :=
  PyStr.split PyStr.comma (PyStr.remove PyStr.newline data_str).


(** The entry [self] after [values] have been appended to its list
    [attr_name]. *)
Definition appended (self : CpuInfo) (attr_name : string) (values : list string)
  : CpuInfo :=
  match assoc_get attr_name (lists self) with
  | Some l => setattr_list self attr_name (l ++ values)
  | None => self
  end.






(** A computation over [CPUS] that leaves every entry related by [r] to
    what it was, also when it raises. *)
Definition preserves {A : Type} (r : CpuInfo -> CpuInfo -> Prop) (m : M A)
  : Prop :=
  forall CPUS, Forall2 r CPUS (m CPUS).1.

(** Two states of an entry with the same id, the later of which has no
    list under a reserved name unless the earlier has. *)
Definition same_identity (cpu cpu' : CpuInfo) : Prop :=
  cpu_id cpu = cpu_id cpu'
  /\ forall k, reserved k = true ->
              k ∈ map fst (lists cpu') -> k ∈ map fst (lists cpu).

(** Two states of an entry with the same list for [attr_name]. *)
Definition same_attribute (attr_name : string) (cpu cpu' : CpuInfo) : Prop :=
  assoc_get attr_name (lists cpu) = assoc_get attr_name (lists cpu').

(** The operations that touch [CPUS] after it has been created. *)
Inductive registry_op : Type :=
  | OpUpdateCpus (cores_list : list core) (upd_param upd_instance : string)
  | OpGetIsolatedCpu (file_text : string)
  | OpGetCpuInfoBender (instance : string) (root : xml)
  | OpGetInfoAboutCpus (instances : list (string * xml))
  | OpUpdateAttribute (i : nat) (attr_name attr_value : string).

(** [CPUS] after one operation, whether it returned or raised. *)
Definition run_op (op : registry_op) (CPUS : list CpuInfo) : list CpuInfo :=
  match op with
  | OpUpdateCpus cores_list upd_param upd_instance =>
      (update_cpus cores_list upd_param upd_instance CPUS).1
  | OpGetIsolatedCpu file_text => (get_isolated_cpu file_text CPUS).1
  | OpGetCpuInfoBender instance root => (get_cpu_info_bender instance root CPUS).1
  | OpGetInfoAboutCpus instances => (get_info_about_cpus instances CPUS).1
  | OpUpdateAttribute i attr_name attr_value =>
      match CPUS !! i with
      | Some cpu =>
          match update_attribute cpu attr_name attr_value with
          | Ok cpu' => <[i := cpu']> CPUS
          | Raise _ => CPUS
          end
      | None => CPUS
      end
  end.

Definition run_ops (ops : list registry_op) (CPUS : list CpuInfo)
  : list CpuInfo :=
  fold_left (fun CPUS op => run_op op CPUS) ops CPUS.








(** A description that reports no mismatch of isolated-CPU sets. *)
Definition other_description (d : string) : Prop :=
  d <> msg_not_eq_grub /\ d <> msg_not_eq_cmdline.

(** An entry with its flag set when its id is one of [ids]. *)
Definition mark_isolated (ids : list Z) (cpu : CpuInfo) : CpuInfo :=
  {| cpu_id := cpu_id cpu;
     isolated := isolated cpu || bool_decide (cpu_id cpu ∈ ids);
     lists := lists cpu |}.

(** Two states of an entry, the later of which has the same id, is
    isolated when the earlier is, and has every list of the earlier
    as a prefix of its own. *)
Definition only_grows (cpu cpu' : CpuInfo) : Prop :=
  cpu_id cpu' = cpu_id cpu
  /\ (isolated cpu = true -> isolated cpu' = true)
  /\ forall k, default [] (assoc_get k (lists cpu))
               `prefix_of` default [] (assoc_get k (lists cpu')).

(** The functions of the program that write to [CPUS]. *)
Inductive registry_call : Type :=
  | CallUpdateCpus (cores_list : list core) (upd_param upd_instance : string)
  | CallGetIsolatedCpu (file_text : string)
  | CallGetCpuInfoBender (instance : string) (root : xml)
  | CallGetInfoAboutCpus (instances : list (string * xml))
  | CallGetNetworkCpu (interfaces : list (string * list string))
  | CallCheckIsolationParameters (zabbix : bool) (f : facts).

(** [CPUS] after one call, whether it returned or raised. *)
Definition run_call (c : registry_call) (CPUS : list CpuInfo) : list CpuInfo :=
  match c with
  | CallUpdateCpus cores_list upd_param upd_instance =>
      (update_cpus cores_list upd_param upd_instance CPUS).1
  | CallGetIsolatedCpu file_text => (get_isolated_cpu file_text CPUS).1
  | CallGetCpuInfoBender instance root =>
      (get_cpu_info_bender instance root CPUS).1
  | CallGetInfoAboutCpus instances => (get_info_about_cpus instances CPUS).1
  | CallGetNetworkCpu interfaces => (get_network_cpu interfaces CPUS).1
  | CallCheckIsolationParameters zabbix f =>
      (check_isolation_parameters zabbix f CPUS).1
  end.

Definition run_calls (calls : list registry_call) (CPUS : list CpuInfo)
  : list CpuInfo :=
  fold_left (fun CPUS c => run_call c CPUS) calls CPUS.



(** The lists of an entry that bind it to a service: those that are
    not empty, [net_cpu] apart. *)
Definition service_lists (self : CpuInfo) : list (string * list string) :=
  filter (fun kv => nonempty kv.2 = true /\ kv.1 <> "net_cpu") (lists self).

Definition format_service (kv : string * list string) : string :=
  kv.1 +:+ ":" +:+ PyStr.join "," kv.2.

(** The characters that [safe_zabbix_msg] takes out. *)
Definition unsafe_chars : list ascii :=
  [PyRepr.backslash; PyRepr.squote; PyRepr.dquote; PyStr.newline;
   "{"%char; "}"%char; tab].

(** The list [role] of the entry holds [bs]. *)
Definition assigned (bs role : string) (cpu : CpuInfo) : bool :=
  match assoc_get role (lists cpu) with
  | Some l => bool_decide (bs ∈ l)
  | None => false
  end.

(** The token is [isolcpus=...]. *)
Definition names_isolcpus (parameter : string) : bool :=
  PyStr.contains "=" parameter
  && bool_decide (default "" (PyStr.split "=" parameter !! 0%nat) = "isolcpus").


(** The policy that the check applies to a host group. *)
Definition policy_of (group : string) : list (string * pval) :=
  default [] (assoc_get (if bool_decide (group = "trade_roxana")
                         then "trade_roxana" else "default")
                        REQ_PARAM_FOR_GR).

(** * Properties *)

(** ** The model on concrete inputs *)

Example int_examples :
  PyStr.int "12" = Ok 12 /\ PyStr.int " 7 " = Ok 7 /\ PyStr.int "+1_0" = Ok 10
  /\ PyStr.int "-3" = Ok (-3) /\ PyStr.int "007" = Ok 7
  /\ PyStr.int "1__0" = Raise ValueError /\ PyStr.int "a" = Raise ValueError
  /\ PyStr.int "1_" = Raise ValueError /\ PyStr.int "+ 1" = Raise ValueError.
Proof. repeat split; reflexivity. Qed.

Example str_examples :
  PyStr.str 0 = "0" /\ PyStr.str 111 = "111" /\ PyStr.str (-42) = "-42"
  /\ PyStr.str 1000 = "1000".
Proof. repeat split; reflexivity. Qed.

Example split_examples :
  PyStr.split PyStr.comma "0,,1" = ["0"; EmptyString; "1"]
  /\ PyStr.split PyStr.hyphen "2-5" = ["2"; "5"]
  /\ PyStr.split PyStr.hyphen "-5" = [EmptyString; "5"]
  /\ PyStr.split PyStr.hyphen "1-2-3" = ["1"; "2"; "3"].
Proof. repeat split; reflexivity. Qed.

Example cpu_sorted_examples :
  cpu_sorted "0-3" = Ok [0; 1; 2; 3]
  /\ cpu_sorted "5-2" = Ok []
  /\ cpu_sorted "3,1,1-2" = Ok [3; 1; 1; 2]
  /\ cpu_sorted "1-2-3" = Raise ValueError
  /\ cpu_sorted "-5" = Raise ValueError
  /\ cpu_sorted "a" = Raise ValueError.
Proof. repeat split; reflexivity. Qed.

Example convert_to_ranges_examples :
  convert_to_ranges [3; 1; 1; 2] = "3,1,1-2"
  /\ convert_to_ranges [7] = "7"
  /\ convert_to_ranges [0; 1] = "0-1".
Proof. repeat split; reflexivity. Qed.

Example repr_examples :
  PyRepr.repr_list ["TrashCPU cpu 7 doesnt exist"; "a'b"]
  = String.concat EmptyString
      ["['TrashCPU cpu 7 doesnt exist', "; String PyRepr.dquote "a'b";
       String PyRepr.dquote "]"].
Proof. reflexivity. Qed.

(** ** Strings *)

Section string_lemmas.

Import PyStr.

Lemma ascii_eqb_true a b : ascii_eqb a b = true <-> a = b.
Proof. apply Ascii.eqb_eq. Qed.

Lemma ascii_eqb_refl a : ascii_eqb a a = true.
Proof. by apply ascii_eqb_true. Qed.

Lemma contains_app c s1 s2 :
  contains c (s1 +:+ s2) = contains c s1 || contains c s2.
Proof.
  induction s1 as [|a s1 IH]; simpl; [done|].
  destruct (ascii_eqb a c); [done|apply IH].
Qed.

Lemma contains_forall (P : ascii -> bool) c s :
  P c = false -> string_forall P s = true -> contains c s = false.
Proof.
  intros Hc. induction s as [|a s IH]; simpl; [done|].
  intros [Ha Hs]%andb_true_iff.
  destruct (ascii_eqb a c) eqn:E; [|by apply IH].
  apply ascii_eqb_true in E. congruence.
Qed.

Lemma remove_absent c s : contains c s = false -> remove c s = s.
Proof.
  induction s as [|a s IH]; simpl; [done|].
  destruct (ascii_eqb a c); [done|]. intros H. by rewrite IH.
Qed.

Lemma split_not_nil sep s : split sep s <> [].
Proof.
  destruct s as [|a s]; simpl; [done|].
  destruct (ascii_eqb a sep); [done|]. by destruct (split sep s).
Qed.

Lemma split_absent sep s : contains sep s = false -> split sep s = [s].
Proof.
  induction s as [|a s IH]; simpl; [done|].
  destruct (ascii_eqb a sep); [done|]. intros H. by rewrite IH.
Qed.

Lemma split_present sep s :
  contains sep s = true -> (2 <= length (split sep s))%nat.
Proof.
  induction s as [|a s IH]; simpl; [done|].
  destruct (ascii_eqb a sep).
  - intros _. pose proof (split_not_nil sep s).
    destruct (split sep s); [done|simpl; lia].
  - intros H. specialize (IH H). destruct (split sep s); simpl in *; lia.
Qed.

Lemma split_app sep t s :
  contains sep t = false ->
  split sep (t +:+ String sep s) = t :: split sep s.
Proof.
  induction t as [|a t IH]; simpl.
  - intros _. by rewrite ascii_eqb_refl.
  - destruct (ascii_eqb a sep); [done|]. intros H. by rewrite IH.
Qed.

Lemma split_join sep toks :
  toks <> [] ->
  Forall (fun t => contains sep t = false) toks ->
  split sep (join (String sep "") toks) = toks.
Proof.
  intros Hne Hall. induction Hall as [|t toks Ht Hall IH]; [done|].
  destruct toks as [|t' toks].
  - simpl. by apply split_absent.
  - change (join (String sep "") (t :: t' :: toks))
      with (t +:+ String sep (join (String sep "") (t' :: toks))).
    rewrite split_app by done. f_equal. by apply IH.
Qed.

Lemma contains_join c sep toks :
  contains c sep = false ->
  Forall (fun t => contains c t = false) toks ->
  contains c (join sep toks) = false.
Proof.
  intros Hsep Hall. induction Hall as [|t toks Ht Hall IH]; [done|].
  destruct toks as [|t' toks]; [done|].
  change (join sep (t :: t' :: toks))
    with (t +:+ (sep +:+ join sep (t' :: toks))).
  by rewrite !contains_app, Ht, Hsep, IH.
Qed.

Lemma is_digit_range c :
  is_digit c = true <-> (48 <= nat_of_ascii c <= 57)%nat.
Proof.
  unfold is_digit. rewrite andb_true_iff, !Nat.leb_le. done.
Qed.

Lemma is_digit_not_space c : is_digit c = true -> is_space c = false.
Proof.
  intros H%is_digit_range. unfold is_space.
  apply orb_false_iff; split.
  - apply andb_false_iff. rewrite !Nat.leb_gt. lia.
  - apply Nat.eqb_neq. lia.
Qed.

Lemma is_digit_neq c c' : is_digit c = true -> is_digit c' = false -> ascii_eqb c c' = false.
Proof.
  intros H H'. destruct (ascii_eqb c c') eqn:E; [|done].
  apply ascii_eqb_true in E. congruence.
Qed.

Lemma lstrip_id s : string_forall (fun c => negb (is_space c)) s = true -> lstrip s = s.
Proof.
  destruct s as [|a s]; simpl; [done|].
  intros [Ha _]%andb_true_iff. by destruct (is_space a).
Qed.

Lemma rstrip_id s : string_forall (fun c => negb (is_space c)) s = true -> rstrip s = s.
Proof.
  induction s as [|a s IH]; simpl; [done|].
  intros [Ha Hs]%andb_true_iff. rewrite IH by done.
  destruct s; [|done]. by destruct (is_space a).
Qed.

Lemma string_forall_impl (P Q : ascii -> bool) s :
  (forall c, P c = true -> Q c = true) ->
  string_forall P s = true -> string_forall Q s = true.
Proof.
  intros HPQ. induction s as [|a s IH]; simpl; [done|].
  intros [Ha Hs]%andb_true_iff. by rewrite HPQ, IH.
Qed.

Lemma strip_digits s : string_forall is_digit s = true -> strip s = s.
Proof.
  intros H.
  assert (string_forall (fun c => negb (is_space c)) s = true) as H'.
  { revert H. apply string_forall_impl.
    intros c Hc. by rewrite is_digit_not_space. }
  unfold strip. by rewrite lstrip_id, rstrip_id.
Qed.

Lemma digit_char_code d :
  0 <= d < 10 -> nat_of_ascii (digit_char d) = Z.to_nat (48 + d).
Proof.
  intros Hd. unfold digit_char. apply nat_ascii_embedding. lia.
Qed.

Lemma digit_char_is_digit d : 0 <= d < 10 -> is_digit (digit_char d) = true.
Proof.
  intros Hd. apply is_digit_range. rewrite digit_char_code by done. lia.
Qed.

Lemma digit_val_char d : 0 <= d < 10 -> digit_val (digit_char d) = d.
Proof.
  intros Hd. unfold digit_val. rewrite digit_char_code by done. lia.
Qed.

Lemma str_digits_forall fuel n acc :
  0 <= n -> string_forall is_digit acc = true ->
  string_forall is_digit (str_digits fuel n acc) = true.
Proof.
  revert n acc. induction fuel as [|fuel IH]; intros n acc Hn Hacc; simpl; [done|].
  assert (string_forall is_digit (String (digit_char (n `mod` 10)) acc) = true) as H.
  { simpl. rewrite digit_char_is_digit, Hacc; [done|].
    apply Z.mod_pos_bound. lia. }
  destruct (n <? 10); [done|].
  apply IH; [|done]. apply Z.div_pos; lia.
Qed.

Lemma str_digits_not_empty fuel n acc : str_digits (S fuel) n acc <> "".
Proof.
  revert n acc. induction fuel as [|fuel IH]; intros n acc.
  - simpl. by destruct (n <? 10).
  - change (str_digits (S (S fuel)) n acc)
      with (if n <? 10 then String (digit_char (n `mod` 10)) acc
            else str_digits (S fuel) (n / 10) (String (digit_char (n `mod` 10)) acc)).
    destruct (n <? 10); [done|apply IH].
Qed.

Lemma parse_str_digits fuel n rest :
  0 <= n < 2 ^ Z.of_nat (S fuel) ->
  parse_digits 0 false (str_digits (S fuel) n rest) = parse_digits n true rest.
Proof.
  revert n rest. induction fuel as [|fuel IH]; intros n rest Hn.
  - assert (n < 10) as Hlt by (change (2 ^ Z.of_nat 1) with 2 in Hn; lia).
    simpl. rewrite (proj2 (Z.ltb_lt _ _) Hlt). simpl.
    rewrite digit_char_is_digit, digit_val_char
      by (rewrite Z.mod_small; lia).
    by rewrite Z.mod_small by lia.
  - change (str_digits (S (S fuel)) n rest)
      with (if n <? 10 then String (digit_char (n `mod` 10)) rest
            else str_digits (S fuel) (n / 10) (String (digit_char (n `mod` 10)) rest)).
    destruct (Z.ltb_spec n 10) as [Hlt|Hge].
    + simpl. rewrite digit_char_is_digit, digit_val_char
        by (rewrite Z.mod_small; lia).
      by rewrite Z.mod_small by lia.
    + rewrite IH.
      * simpl. pose proof (Z.mod_pos_bound n 10 ltac:(lia)).
        rewrite digit_char_is_digit, digit_val_char by done.
        f_equal. pose proof (Z.div_mod n 10 ltac:(lia)). lia.
      * split; [apply Z.div_pos; lia|].
        apply Z.div_lt_upper_bound; [lia|].
        rewrite (Nat2Z.inj_succ (S fuel)), Z.pow_succ_r in Hn by lia. lia.
Qed.

Lemma str_nonneg_digits n : 0 <= n -> string_forall is_digit (str_nonneg n) = true.
Proof. intros Hn. by apply str_digits_forall. Qed.

Lemma str_nonneg_not_empty n : str_nonneg n <> "".
Proof. apply str_digits_not_empty. Qed.

Lemma parse_str_nonneg n : 0 <= n -> parse_digits 0 false (str_nonneg n) = Some n.
Proof.
  intros Hn. unfold str_nonneg. rewrite parse_str_digits; [done|].
  split; [done|]. rewrite Nat2Z.inj_succ, Z2Nat.id by apply Z.log2_nonneg.
  destruct (decide (n = 0)) as [->|Hne]; [done|].
  apply Z.log2_spec. lia.
Qed.

Lemma int_digits s :
  s <> "" -> string_forall is_digit s = true ->
  int s = match parse_digits 0 false s with
          | Some n => Ok n
          | None => Raise ValueError
          end.
Proof.
  intros Hne Hs. unfold int. rewrite strip_digits by done.
  destruct s as [|c s]; [done|].
  simpl in Hs. apply andb_true_iff in Hs as [Hc Hs].
  by rewrite !(is_digit_neq c) by done.
Qed.

Lemma str_nonneg_eq n : 0 <= n -> str n = str_nonneg n.
Proof. intros Hn. unfold str. by rewrite (proj2 (Z.ltb_ge _ _) Hn). Qed.

Lemma int_str n : 0 <= n -> int (str n) = Ok n.
Proof.
  intros Hn. rewrite str_nonneg_eq by done.
  rewrite int_digits, parse_str_nonneg;
    auto using str_nonneg_not_empty, str_nonneg_digits.
Qed.

Lemma str_absent c n :
  0 <= n -> is_digit c = false -> contains c (str n) = false.
Proof.
  intros Hn Hc. rewrite str_nonneg_eq by done.
  apply (contains_forall is_digit); [done|by apply str_nonneg_digits].
Qed.

End string_lemmas.

(** ** Range codec *)

Section codec_lemmas.

Import PyStr.

Lemma expand_ranges_app rs1 rs2 :
  expand_ranges (rs1 ++ rs2) = expand_ranges rs1 ++ expand_ranges rs2.
Proof. apply flat_map_app. Qed.

Lemma expand_ranges_one s e : expand_ranges [(s, e)] = seqZ s (e + 1 - s).
Proof. unfold expand_ranges. simpl. apply app_nil_r. Qed.

Lemma seqZ_snoc s e : s <= e -> seqZ s (e + 1 + 1 - s) = seqZ s (e + 1 - s) ++ [e + 1].
Proof.
  intros H. replace (e + 1 + 1 - s) with ((e + 1 - s) + 1) by lia.
  rewrite seqZ_app by lia. f_equal.
  replace (s + (e + 1 - s)) with (e + 1) by lia. done.
Qed.

(** What the loop of [convert_to_ranges] returns covers exactly the
    numbers it has read, whatever their order. *)
Lemma ranges_loop_expand rest : forall start prev ranges,
  start <= prev ->
  expand_ranges (ranges_loop start prev rest ranges)
  = expand_ranges ranges ++ seqZ start (prev + 1 - start) ++ rest.
Proof.
  induction rest as [|x rest IH]; intros start prev ranges Hle; simpl.
  - by rewrite expand_ranges_app, expand_ranges_one, app_nil_r.
  - destruct (Z.eqb_spec x (prev + 1)) as [->|Hne]; simpl.
    + rewrite IH by lia. rewrite seqZ_snoc by done. by rewrite <- !app_assoc.
    + rewrite IH by lia. rewrite expand_ranges_app, expand_ranges_one.
      replace (x + 1 - x) with 1 by lia. by rewrite <- !app_assoc.
Qed.

Lemma ranges_loop_ok rest : forall start prev ranges,
  0 <= start <= prev -> Forall (fun x => 0 <= x) rest ->
  Forall range_ok ranges ->
  Forall range_ok (ranges_loop start prev rest ranges).
Proof.
  induction rest as [|x rest IH]; intros start prev ranges Hle Hrest Hr; simpl.
  - apply Forall_app; split; [done|]. by constructor.
  - inversion Hrest as [|? ? Hx Hrest']; subst.
    destruct (Z.eqb_spec x (prev + 1)) as [->|Hne]; simpl.
    + apply IH; [lia|done|done].
    + apply IH; [lia|done|]. apply Forall_app; split; [done|]. by constructor.
Qed.

Lemma ranges_loop_not_nil rest : forall start prev ranges,
  ranges_loop start prev rest ranges <> [].
Proof.
  induction rest as [|x rest IH]; intros start prev ranges; simpl.
  - by destruct ranges.
  - destruct (negb (x =? prev + 1)); apply IH.
Qed.




Lemma format_range_absent c r :
  range_ok r -> is_digit c = false -> ascii_eqb hyphen c = false ->
  contains c (format_range r) = false.
Proof.
  destruct r as [s e]. unfold range_ok. simpl. intros Hr Hc Hh.
  destruct (negb (s =? e)).
  - rewrite !contains_app, !str_absent by (done || lia). simpl. by rewrite Hh.
  - apply str_absent; [lia|done].
Qed.

Lemma cpu_sorted_token_format res r :
  range_ok r ->
  cpu_sorted_token res (format_range r) = Ok (res ++ expand_ranges [r]).
Proof.
  destruct r as [s e]. rewrite expand_ranges_one.
  unfold range_ok. simpl. intros Hr. unfold cpu_sorted_token.
  destruct (Z.eqb_spec s e) as [->|Hne]; simpl negb; cbv iota.
  - rewrite str_absent by (done || lia). rewrite int_str by lia. simpl.
    replace (e + 1 - e) with 1 by lia. done.
  - rewrite !contains_app. simpl. rewrite orb_true_r.
    change (str s +:+ "-" +:+ str e) with (str s +:+ String hyphen (str e)).
    rewrite split_app, split_absent by (apply str_absent; (done || lia)).
    rewrite !int_str by lia. done.
Qed.

Lemma cpu_sorted_loop_format rs : forall res,
  Forall range_ok rs ->
  cpu_sorted_loop (map format_range rs) res = Ok (res ++ expand_ranges rs).
Proof.
  induction rs as [|r rs IH]; intros res Hrs.
  - simpl. by rewrite app_nil_r.
  - inversion Hrs as [|? ? Hr Hrs']; subst.
    change (expand_ranges (r :: rs)) with (expand_ranges ([r] ++ rs)).
    rewrite expand_ranges_app, app_assoc.
    change (cpu_sorted_loop (map format_range (r :: rs)) res)
      with (let! res' := cpu_sorted_token res (format_range r) in
            cpu_sorted_loop (map format_range rs) res').
    rewrite cpu_sorted_token_format by done. simpl rbind.
    by apply IH.
Qed.

Lemma cpu_sorted_format rs :
  rs <> [] -> Forall range_ok rs ->
  cpu_sorted (join "," (map format_range rs)) = Ok (expand_ranges rs).
Proof.
  intros Hne Hrs. unfold cpu_sorted.
  rewrite remove_absent.
  - rewrite (split_join comma).
    + by apply cpu_sorted_loop_format.
    + by destruct rs.
    + apply Forall_map. eapply Forall_impl; [exact Hrs|].
      intros r Hr. by apply format_range_absent.
  - apply contains_join; [done|].
    apply Forall_map. eapply Forall_impl; [exact Hrs|].
    intros r Hr. by apply format_range_absent.
Qed.

(** Decoding an encoded list gives the list back, for every non-empty
    list of non-negative numbers. *)
Lemma cpu_sorted_convert_to_ranges x :
  x <> [] -> Forall (fun n => 0 <= n) x ->
  cpu_sorted (convert_to_ranges x) = Ok x.
Proof.
  intros Hne Hx. destruct x as [|n0 rest]; [done|].
  inversion Hx as [|? ? Hn0 Hrest]; subst.
  unfold convert_to_ranges.
  rewrite cpu_sorted_format.
  - rewrite ranges_loop_expand by lia. simpl.
    replace (n0 + 1 - n0) with 1 by lia. done.
  - apply ranges_loop_not_nil.
  - apply ranges_loop_ok; [lia|done|constructor].
Qed.

End codec_lemmas.

Section decode_failure.

Import PyStr.

Lemma int_cases s : (exists n, int s = Ok n) \/ int s = Raise ValueError.
Proof.
  unfold int.
  destruct (match strip s with
            | "" => None
            | String c s' =>
                if ascii_eqb c "+" then parse_digits 0 false s'
                else if ascii_eqb c "-" then Z.opp <$> parse_digits 0 false s'
                else parse_digits 0 false (strip s)
            end); eauto.
Qed.

Lemma is_int_false s : is_int s = false -> int s = Raise ValueError.
Proof.
  unfold is_int. by destruct (int_cases s) as [[n ->]| ->].
Qed.

Lemma is_int_true s : is_int s = true -> exists n, int s = Ok n.
Proof.
  unfold is_int. destruct (int_cases s) as [[n ->]| ->]; [eauto|done].
Qed.

Lemma cpu_sorted_token_bad res tok :
  token_ok tok = false -> cpu_sorted_token res tok = Raise ValueError.
Proof.
  unfold token_ok, cpu_sorted_token.
  destruct (contains hyphen tok) eqn:Hc.
  - destruct (split hyphen tok) as [|a [|b [|c l]]]; try done.
    intros [Ha|Hb]%andb_false_iff.
    + by rewrite (is_int_false a).
    + rewrite (is_int_false b) by done. by destruct (int_cases a) as [[n ->]| ->].
  - rewrite split_absent by done. intros H. by rewrite (is_int_false tok).
Qed.

Lemma cpu_sorted_token_good res tok :
  token_ok tok = true -> exists l, cpu_sorted_token res tok = Ok (res ++ l).
Proof.
  unfold token_ok, cpu_sorted_token.
  destruct (contains hyphen tok) eqn:Hc.
  - destruct (split hyphen tok) as [|a [|b [|c l]]] eqn:Hs; try done.
    + apply split_present in Hc. rewrite Hs in Hc. simpl in Hc. lia.
    + intros [Ha Hb]%andb_true_iff.
      apply is_int_true in Ha as [n ->]. apply is_int_true in Hb as [m ->].
      simpl. eauto.
  - rewrite split_absent by done. intros [n ->]%is_int_true. simpl. eauto.
Qed.


Lemma cpu_sorted_loop_cases toks res :
  (exists l, cpu_sorted_loop toks res = Ok l)
  \/ cpu_sorted_loop toks res = Raise ValueError.
Proof.
  revert res. induction toks as [|tok toks IH]; intros res; simpl; [eauto|].
  destruct (token_ok tok) eqn:Hok.
  - destruct (cpu_sorted_token_good res tok Hok) as [l ->]. simpl. apply IH.
  - rewrite cpu_sorted_token_bad by done. by right.
Qed.



End decode_failure.

(** C2. Decoding an encoded list returns the list, for every non-empty
    strictly ascending list of non-negative integers; the empty list
    encodes to the empty string, and decoding the empty string raises
    [ValueError]. *)
Theorem C2_decode_encode (x : list Z)
    (Hne : x <> []) (Hasc : ascending x) (Hpos : Forall (fun n => 0 <= n) x) :
  cpu_sorted (convert_to_ranges x) = Ok x
  /\ convert_to_ranges [] = ""
  /\ cpu_sorted "" = Raise ValueError.
Proof.
  split; [by apply cpu_sorted_convert_to_ranges|done].
Qed.

Lemma C2_decode_encode_witness :
  cpu_sorted (convert_to_ranges [0; 1; 2; 3; 4; 5; 111]) = Ok [0; 1; 2; 3; 4; 5; 111]
  /\ convert_to_ranges [] = ""
  /\ cpu_sorted "" = Raise ValueError.
Proof.
  apply (C2_decode_encode [0; 1; 2; 3; 4; 5; 111]).
  - discriminate.
  - simpl. lia.
  - repeat constructor; lia.
Defined.

(** C2, as stated, fails on the empty list: its encoding is the empty
    string, which [cpu_sorted] does not decode to the empty list. *)
Lemma C2_empty_counterexample :
  ascending [] /\ Forall (fun n => 0 <= n) []
  /\ cpu_sorted (convert_to_ranges []) <> Ok []
  /\ cpu_sorted "" <> Ok [].
Proof. repeat split; (constructor || discriminate). Qed.







(** ** The registry *)

Section assoc_lemmas.

Context {A : Type}.
Implicit Types (l : list (string * A)) (k : string).

Lemma assoc_set_keys k v l k' :
  k' ∈ map fst (assoc_set k v l) -> k' = k \/ k' ∈ map fst l.
Proof.
  induction l as [|[k0 v0] l IH]; simpl.
  - intros ->%list_elem_of_singleton. by left.
  - case_bool_decide; simpl; [by right|].
    intros [->|Hin]%elem_of_cons; [right; left|].
    destruct (IH Hin) as [->|?]; [by left|right; by right].
Qed.

Lemma assoc_get_set_eq k v l : assoc_get k (assoc_set k v l) = Some v.
Proof.
  induction l as [|[k' v'] l IH]; simpl.
  - by rewrite bool_decide_eq_true_2.
  - case_bool_decide as Hk; simpl.
    + by rewrite bool_decide_eq_true_2.
    + by rewrite bool_decide_eq_false_2.
Qed.

Lemma assoc_get_set_ne k k' v l :
  k <> k' -> assoc_get k' (assoc_set k v l) = assoc_get k' l.
Proof.
  intros Hne. induction l as [|[k0 v0] l IH]; simpl.
  - by rewrite bool_decide_eq_false_2.
  - case_bool_decide as Hk; simpl.
    + subst k0. by rewrite !bool_decide_eq_false_2.
    + case_bool_decide; [done|apply IH].
Qed.



Lemma assoc_get_elem_of k v l : assoc_get k l = Some v -> (k, v) ∈ l.
Proof.
  induction l as [|[k' v'] l IH]; simpl; [done|].
  case_bool_decide as Hk.
  - intros [= ->]. subst. left.
  - intros Hl. right. by apply IH.
Qed.

End assoc_lemmas.

Section update_attribute_lemmas.

Lemma getattr_list self attr_name :
  reserved attr_name = false ->
  getattr self attr_name
  = match assoc_get attr_name (lists self) with
    | Some l => Ok (VList l)
    | None =>
        if bool_decide (attr_name = "__doc__") then Ok VNone
        else Raise AttributeError
    end.
Proof.
  intros [H1 H2]%orb_false_iff.
  apply bool_decide_eq_false in H1. apply bool_decide_eq_false in H2.
  unfold getattr, dict_items. simpl.
  rewrite (bool_decide_eq_false_2 ("cpu_id" = attr_name)) by done.
  rewrite (bool_decide_eq_false_2 ("isolated" = attr_name)) by done.
  induction (lists self) as [|[k l] ls IH]; simpl; [done|].
  destruct (bool_decide (k = attr_name)); [done|apply IH].
Qed.

Lemma update_attribute_reserved self attr_name attr_value :
  reserved attr_name = true ->
  update_attribute self attr_name attr_value
  = Raise (Exception_ ("update_attribute cant be used for " +:+ attr_name)).
Proof. intros H. unfold update_attribute. by rewrite H. Qed.

Lemma update_attribute_list self attr_name attr_value l :
  reserved attr_name = false ->
  assoc_get attr_name (lists self) = Some l ->
  update_attribute self attr_name attr_value
  = Ok (setattr_list self attr_name (l ++ [attr_value])).
Proof.
  intros Hr Hl. unfold update_attribute.
  rewrite Hr, getattr_list, Hl by done. simpl.
  by destruct l.
Qed.

Lemma update_attribute_unknown self attr_name attr_value :
  reserved attr_name = false ->
  assoc_get attr_name (lists self) = None ->
  attr_name <> "__doc__" ->
  update_attribute self attr_name attr_value = Raise AttributeError.
Proof.
  intros Hr Hl Hdoc. unfold update_attribute.
  rewrite Hr, getattr_list, Hl by done. simpl.
  by rewrite bool_decide_eq_false_2.
Qed.

(** Whenever [update_attribute] returns, it has set one list. *)
Lemma update_attribute_Ok self attr_name attr_value self' :
  update_attribute self attr_name attr_value = Ok self' ->
  reserved attr_name = false
  /\ self' = setattr_list self attr_name
              (default [] (assoc_get attr_name (lists self)) ++ [attr_value]).
Proof.
  intros H. destruct (reserved attr_name) eqn:Hr.
  { by rewrite update_attribute_reserved in H. }
  split; [done|].
  destruct (assoc_get attr_name (lists self)) as [l|] eqn:Hl.
  - rewrite (update_attribute_list _ _ _ l) in H by done. simpl. congruence.
  - unfold update_attribute in H. rewrite Hr, getattr_list, Hl in H by done.
    simpl in *. case_bool_decide; simpl in H; congruence.
Qed.






End update_attribute_lemmas.

Section preservation.

Context (r : CpuInfo -> CpuInfo -> Prop).
Context `{!Reflexive r, !Transitive r}.

(** The attribute names whose update keeps [r]. *)
Context (P : string -> Prop).
Hypothesis r_update : forall cpu p v cpu',
  P p -> update_attribute cpu p v = Ok cpu' -> r cpu cpu'.

Lemma Forall2_r_refl (CPUS : list CpuInfo) : Forall2 r CPUS CPUS.
Proof. by apply Forall2_same_length_lookup_2; [|intros i x y ? ?; simplify_eq]. Qed.

Lemma Forall2_r_trans (S1 S2 S3 : list CpuInfo) :
  Forall2 r S1 S2 -> Forall2 r S2 S3 -> Forall2 r S1 S3.
Proof.
  intros H12. revert S3. induction H12 as [|x y S1 S2 Hxy H12 IH]; intros S3 H23.
  - by inversion H23.
  - inversion H23 as [|? z ? S3' Hyz H23']; subst.
    constructor; [by transitivity y|by apply IH].
Qed.

Lemma Forall2_r_insert (CPUS : list CpuInfo) i cpu cpu' :
  CPUS !! i = Some cpu -> r cpu cpu' -> Forall2 r CPUS (<[i := cpu']> CPUS).
Proof.
  intros Hi Hr. apply Forall2_same_length_lookup_2.
  - by rewrite length_insert.
  - intros j x y Hx Hy. destruct (decide (i = j)) as [->|Hne].
    + rewrite list_lookup_insert_eq in Hy by by eapply lookup_lt_Some.
      by simplify_eq.
    + rewrite list_lookup_insert_ne in Hy by done. by simplify_eq.
Qed.

Lemma preserves_ret {A} (a : A) : preserves r (mret a).
Proof. intros CPUS. apply Forall2_r_refl. Qed.

Lemma preserves_raise {A} e : preserves r (@mraise A e).
Proof. intros CPUS. apply Forall2_r_refl. Qed.

Lemma preserves_lift {A} (x : result A) : preserves r (mlift x).
Proof. intros CPUS. apply Forall2_r_refl. Qed.

Lemma preserves_bind {A B} (m : M A) (k : A -> M B) :
  preserves r m -> (forall a, preserves r (k a)) -> preserves r (mbind m k).
Proof.
  intros Hm Hk CPUS. unfold mbind. specialize (Hm CPUS).
  destruct (m CPUS) as [CPUS' [a|e]]; simpl in *; [|done].
  eapply Forall2_r_trans; [exact Hm|apply Hk].
Qed.

Lemma get_cpu_by_id_Some cid CPUS i cpu :
  get_cpu_by_id cid CPUS = Some (i, cpu) ->
  CPUS !! i = Some cpu /\ cpu_id cpu = cid.
Proof. intros (? & ? & _)%list_find_Some. done. Qed.

Lemma update_cpus_loop_preserves cores_list p v : forall errs,
  P p -> preserves r (update_cpus_loop cores_list p v errs).
Proof.
  induction cores_list as [|c cores_list IH]; intros errs Hp.
  - apply preserves_ret.
  - simpl. apply preserves_bind; [apply preserves_lift|].
    intros cid CPUS.
    destruct (get_cpu_by_id cid CPUS) as [[i cpu]|] eqn:Hfind.
    + destruct (update_attribute cpu p v) as [cpu'|e] eqn:Hupd.
      * eapply Forall2_r_trans; [|by apply IH].
        apply get_cpu_by_id_Some in Hfind as [Hi _].
        eapply Forall2_r_insert; eauto.
      * apply Forall2_r_refl.
    + by apply IH.
Qed.

Lemma update_cpus_preserves cores_list p v :
  P p -> preserves r (update_cpus cores_list p v).
Proof. apply update_cpus_loop_preserves. Qed.

Lemma update_cpus_unnamed_preserves cores_list : forall errs,
  preserves r (update_cpus_unnamed cores_list errs).
Proof.
  induction cores_list as [|c cores_list IH]; intros errs.
  - apply preserves_ret.
  - simpl. apply preserves_bind; [apply preserves_lift|].
    intros cid CPUS.
    destruct (get_cpu_by_id cid CPUS) as [[i cpu]|]; [apply Forall2_r_refl|apply IH].
Qed.

Lemma update_from_preserves node p instance :
  P p -> preserves r (update_from node p instance).
Proof.
  intros Hp. unfold update_from.
  destruct (xml_get node "Cores"); [by apply update_cpus_preserves|apply preserves_raise].
Qed.

Lemma parameters_loop_preserves root instance parameters : forall err_cpu,
  Forall P parameters ->
  preserves r (parameters_loop root instance parameters err_cpu).
Proof.
  induction parameters as [|p parameters IH]; intros err_cpu Hps.
  - apply preserves_ret.
  - inversion Hps as [|? ? Hp Hps']; subst. simpl.
    destruct (find root p); [|by apply IH].
    apply preserves_bind; [by apply update_from_preserves|].
    intros errs. by apply IH.
Qed.

Lemma alias_loop_preserves instance cpu_aliases : forall err_cpu,
  Forall (fun a => forall name, xml_get a "Name" = Some name -> P name) cpu_aliases ->
  preserves r (alias_loop instance cpu_aliases err_cpu).
Proof.
  induction cpu_aliases as [|a cpu_aliases IH]; intros err_cpu Has.
  - apply preserves_ret.
  - inversion Has as [|? ? Ha Has']; subst. simpl.
    destruct (xml_get a "Cores"); [|apply preserves_raise].
    apply preserves_bind.
    + destruct (xml_get a "Name") as [name|].
      * apply update_cpus_preserves. by apply Ha.
      * apply update_cpus_unnamed_preserves.
    + intros errs. by apply IH.
Qed.

Lemma xpath_step_preserves root instance param :
  (length (xpath root param.1) = 1%nat -> P param.2) ->
  preserves r (xpath_step root instance param).
Proof.
  intros Hp. unfold xpath_step.
  destruct (xpath root param.1) as [|node [|node' l]];
    [apply preserves_ret| |apply preserves_ret].
  apply update_from_preserves. by apply Hp.
Qed.

Lemma xpath_loop_preserves root instance params : forall err_cpu,
  Forall (fun param => length (xpath root param.1) = 1%nat -> P param.2) params ->
  preserves r (xpath_loop root instance params err_cpu).
Proof.
  induction params as [|param params IH]; intros err_cpu Hps.
  - apply preserves_ret.
  - inversion Hps as [|? ? Hp Hps']; subst. simpl.
    apply preserves_bind; [by apply xpath_step_preserves|].
    intros errs. by apply IH.
Qed.

End preservation.

Section update_cpus_lemmas.








End update_cpus_lemmas.






Section identity.

Global Instance same_identity_refl : Reflexive same_identity.
Proof. by intros cpu. Qed.

Global Instance same_identity_trans : Transitive same_identity.
Proof. intros a b c [H1 H2] [H3 H4]. split; [congruence|auto]. Qed.

Lemma update_attribute_identity cpu p v cpu' :
  True -> update_attribute cpu p v = Ok cpu' -> same_identity cpu cpu'.
Proof.
  intros _ (Hr & ->)%update_attribute_Ok.
  split; [done|]. simpl. intros k Hk [->|Hin]%assoc_set_keys; [congruence|done].
Qed.

Lemma get_isolated_cpu_identity file_text :
  preserves same_identity (get_isolated_cpu file_text).
Proof.
  intros CPUS. unfold get_isolated_cpu.
  destruct (get_system_isolated_cpus file_text) as [cpus|e];
    [|apply (Forall2_r_refl _)].
  destruct (list_truthy cpus); [|apply (Forall2_r_refl _)]. simpl.
  apply Forall2_fmap_r, Forall_Forall2_diag, Forall_forall.
  intros cpu _. simpl. by destruct (bool_decide (cpu_id cpu ∈ default [] cpus)).
Qed.

Lemma bender_err_cpu_preserves r `{!Reflexive r, !Transitive r}
    (P : string -> Prop) instance root :
  (forall cpu p v cpu', P p -> update_attribute cpu p v = Ok cpu' -> r cpu cpu') ->
  Forall P parameters_list ->
  Forall (fun a => forall name, xml_get a "Name" = Some name -> P name)
         (findall root "CPUAlias") ->
  Forall (fun param => length (xpath root param.1) = 1%nat -> P param.2)
         (udp_params ++ special_params) ->
  preserves r (bender_err_cpu instance root).
Proof.
  intros Hupd Hparams Halias [Hudp Hspecial]%Forall_app.
  unfold bender_err_cpu.
  apply (preserves_bind _); [by eapply parameters_loop_preserves|].
  intros e1. apply (preserves_bind _); [by eapply alias_loop_preserves|].
  intros e2. apply (preserves_bind _); [by eapply xpath_loop_preserves|].
  intros e3. by eapply xpath_loop_preserves.
Qed.

Lemma get_cpu_info_bender_preserves r `{!Reflexive r, !Transitive r}
    (P : string -> Prop) instance root :
  (forall cpu p v cpu', P p -> update_attribute cpu p v = Ok cpu' -> r cpu cpu') ->
  Forall P parameters_list ->
  Forall (fun a => forall name, xml_get a "Name" = Some name -> P name)
         (findall root "CPUAlias") ->
  Forall (fun param => length (xpath root param.1) = 1%nat -> P param.2)
         (udp_params ++ special_params) ->
  preserves r (get_cpu_info_bender instance root).
Proof.
  intros Hupd Hparams Halias Hxpath. unfold get_cpu_info_bender.
  apply (preserves_bind _); [by eapply bender_err_cpu_preserves|].
  intros [|e errs]; by apply (preserves_ret _).
Qed.

Lemma get_cpu_info_bender_identity instance root :
  preserves same_identity (get_cpu_info_bender instance root).
Proof.
  apply (get_cpu_info_bender_preserves _ (fun _ => True)).
  - apply update_attribute_identity.
  - by apply Forall_forall.
  - by apply Forall_forall.
  - by apply Forall_forall.
Qed.

Lemma info_errors_loop_identity instances : forall cpus_err,
  preserves same_identity (info_errors_loop instances cpus_err).
Proof.
  induction instances as [|[instance root] instances IH]; intros cpus_err.
  - apply (preserves_ret _).
  - simpl. apply (preserves_bind _); [apply get_cpu_info_bender_identity|].
    intros [e|]; apply IH.
Qed.

Lemma get_info_about_cpus_identity instances :
  preserves same_identity (get_info_about_cpus instances).
Proof.
  unfold get_info_about_cpus.
  apply (preserves_bind _); [apply info_errors_loop_identity|].
  intros cpus_err CPUS. apply (Forall2_r_refl _).
Qed.

Lemma run_op_identity op CPUS : Forall2 same_identity CPUS (run_op op CPUS).
Proof.
  destruct op as [cores p v|file_text|instance root|instances|i name v]; simpl.
  - by apply (update_cpus_preserves same_identity (fun _ => True)
                 update_attribute_identity).
  - apply get_isolated_cpu_identity.
  - apply get_cpu_info_bender_identity.
  - apply get_info_about_cpus_identity.
  - destruct (CPUS !! i) as [cpu|] eqn:Hi; [|apply (Forall2_r_refl _)].
    destruct (update_attribute cpu name v) as [cpu'|e] eqn:Hupd;
      [|apply (Forall2_r_refl _)].
    apply (Forall2_r_insert same_identity CPUS i cpu cpu' Hi).
    by eapply update_attribute_identity.
Qed.

Lemma run_ops_identity ops : forall CPUS,
  Forall2 same_identity CPUS (run_ops ops CPUS).
Proof.
  induction ops as [|op ops IH]; intros CPUS; simpl.
  - apply (Forall2_r_refl _).
  - eapply (Forall2_r_trans _); [apply run_op_identity|apply IH].
Qed.

Lemma same_identity_ids (S1 S2 : list CpuInfo) :
  Forall2 same_identity S1 S2 -> map cpu_id S2 = map cpu_id S1.
Proof.
  induction 1 as [|x y S1 S2 [Hid _] _ IH]; simpl; [done|]. by rewrite IH, Hid.
Qed.

Lemma same_identity_reserved (S1 S2 : list CpuInfo) :
  Forall2 same_identity S1 S2 ->
  Forall (fun cpu => forall k, reserved k = true -> k ∉ map fst (lists cpu)) S1 ->
  Forall (fun cpu => forall k, reserved k = true -> k ∉ map fst (lists cpu)) S2.
Proof.
  induction 1 as [|x y S1 S2 [_ Hk] _ IH]; [done|].
  intros Hall. inversion Hall as [|? ? Hx Hall']; subst.
  constructor; [|by apply IH].
  intros k Hr Hin. by apply (Hx k Hr), Hk.
Qed.

Lemma cpu_usage_not_reserved self :
  Forall (fun name => reserved name = false) (cpu_usage self).
Proof.
  unfold cpu_usage. apply Forall_forall. intros name Hin.
  apply list_elem_of_filter in Hin as [Hr _].
  by apply negb_true_iff.
Qed.

End identity.

Lemma get_all_cpus_Ok file_text ids :
  cpu_sorted file_text = Ok ids ->
  get_all_cpus file_text = Ok (map CpuInfo_init ids).
Proof. intros H. unfold get_all_cpus. by rewrite H. Qed.

Lemma reserved_true k : reserved k = true -> k = "cpu_id" \/ k = "isolated".
Proof.
  intros [H|H]%orb_true_iff; apply bool_decide_eq_true in H; auto.
Qed.

Lemma get_all_cpus_reserved file_text CPUS :
  get_all_cpus file_text = Ok CPUS ->
  Forall (fun cpu => forall k, reserved k = true -> k ∉ map fst (lists cpu)) CPUS.
Proof.
  unfold get_all_cpus. destruct (cpu_sorted file_text) as [ids|e]; [|done].
  intros [= <-]. apply Forall_map, Forall_forall. intros id _ k Hk.
  apply reserved_true in Hk as [->| ->];
    apply (bool_decide_eq_false_1 _); reflexivity.
Qed.

(** C9. In a registry made by [get_all_cpus], after any sequence of
    operations, whether they return or raise, every entry keeps its
    [cpu_id], no list is held under ["cpu_id"] or ["isolated"], and
    [cpu_usage] names no reserved attribute; [update_attribute] with
    ["cpu_id"] or ["isolated"] raises, so that the registry is left as
    it was. *)
Theorem C9_reserved_keys (file_text : string) (CPUS0 : list CpuInfo)
    (ops : list registry_op) (cpu : CpuInfo) (attr_value : string)
    (i : nat) (CPUS : list CpuInfo)
    (Hcreate : get_all_cpus file_text = Ok CPUS0) :
  map cpu_id (run_ops ops CPUS0) = map cpu_id CPUS0
  /\ Forall (fun e =>
               ("cpu_id" ∉ map fst (lists e))
               /\ ("isolated" ∉ map fst (lists e))
               /\ Forall (fun name => reserved name = false) (cpu_usage e))
            (run_ops ops CPUS0)
  /\ update_attribute cpu "cpu_id" attr_value
     = Raise (Exception_ "update_attribute cant be used for cpu_id")
  /\ update_attribute cpu "isolated" attr_value
     = Raise (Exception_ "update_attribute cant be used for isolated")
  /\ run_op (OpUpdateAttribute i "cpu_id" attr_value) CPUS = CPUS
  /\ run_op (OpUpdateAttribute i "isolated" attr_value) CPUS = CPUS.
Proof.
  pose proof (run_ops_identity ops CPUS0) as Hid.
  split; [by apply same_identity_ids|].
  split.
  { pose proof (same_identity_reserved _ _ Hid
                  (get_all_cpus_reserved _ _ Hcreate)) as Hk.
    eapply Forall_impl; [exact Hk|]. intros e He. simpl in He.
    split; [by apply He|]. split; [by apply He|].
    apply cpu_usage_not_reserved. }
  split; [done|]. split; [done|].
  split; simpl; by destruct (CPUS !! i).
Qed.

Lemma C9_reserved_keys_witness :
  let ops := [OpUpdateCpus [CInt 0; CInt 5] "Kafka" "BS1";
              OpGetIsolatedCpu "1";
              OpUpdateCpus [CInt 1] "cpu_id" "BS1"] in
  let CPUS0 := [CpuInfo_init 0; CpuInfo_init 1] in
  map cpu_id (run_ops ops CPUS0) = map cpu_id CPUS0
  /\ Forall (fun e =>
               ("cpu_id" ∉ map fst (lists e))
               /\ ("isolated" ∉ map fst (lists e))
               /\ Forall (fun name => reserved name = false) (cpu_usage e))
            (run_ops ops CPUS0)
  /\ update_attribute (CpuInfo_init 0) "cpu_id" "BS1"
     = Raise (Exception_ "update_attribute cant be used for cpu_id")
  /\ update_attribute (CpuInfo_init 0) "isolated" "BS1"
     = Raise (Exception_ "update_attribute cant be used for isolated")
  /\ run_op (OpUpdateAttribute 0 "cpu_id" "BS1") CPUS0 = CPUS0
  /\ run_op (OpUpdateAttribute 0 "isolated" "BS1") CPUS0 = CPUS0.
Proof.
  intros ops CPUS0.
  apply (C9_reserved_keys "0-1" CPUS0 ops (CpuInfo_init 0) "BS1" 0%nat CPUS0).
  reflexivity.
Defined.

(** C5. [get_all_cpus] makes one entry per element of the decoded list
    of online CPUs, in order, each with [isolated] false and every list
    empty; an id that occurs twice gives two entries. *)
Theorem C5_registry_creation (file_text : string) (ids : list Z)
    (Hdecode : cpu_sorted file_text = Ok ids) :
  get_all_cpus file_text = Ok (map CpuInfo_init ids)
  /\ map cpu_id (map CpuInfo_init ids) = ids
  /\ Forall (fun cpu =>
               isolated cpu = false
               /\ Forall (fun kv => kv.2 = []) (lists cpu))
            (map CpuInfo_init ids).
Proof.
  split; [by apply get_all_cpus_Ok|].
  split.
  - rewrite map_map. simpl. apply map_id.
  - apply Forall_map, Forall_forall. intros id _. split; [done|].
    simpl. repeat constructor.
Qed.

Lemma C5_registry_creation_witness :
  get_all_cpus "0,0,2-3" = Ok (map CpuInfo_init [0; 0; 2; 3])
  /\ map cpu_id (map CpuInfo_init [0; 0; 2; 3]) = [0; 0; 2; 3]
  /\ Forall (fun cpu =>
               isolated cpu = false
               /\ Forall (fun kv => kv.2 = []) (lists cpu))
            (map CpuInfo_init [0; 0; 2; 3]).
Proof. apply (C5_registry_creation "0,0,2-3" [0; 0; 2; 3]). reflexivity. Defined.

(** C5, as stated, fails: with a repeated id [get_all_cpus] does not
    fail, it returns two entries with that id. *)
Lemma C5_duplicate_counterexample :
  get_all_cpus "0,0" = Ok [CpuInfo_init 0; CpuInfo_init 0].
Proof. reflexivity. Qed.

Lemma check_free_loop_lists (ls : list (string * list string)) :
  check_free_loop (map (fun kv => (kv.1, VList kv.2)) ls) = true
  <-> Forall (fun kv => kv.1 ∈ ["isolated"; "cpu_id"; "net_cpu"] \/ kv.2 = []) ls.
Proof.
  induction ls as [|[k l] ls IH]; simpl.
  - split; [constructor|done].
  - rewrite Forall_cons. simpl. case_bool_decide as Hk; simpl.
    + rewrite andb_false_r, IH. split; [auto|by intros [_ ?]].
    + rewrite andb_true_r. destruct l as [|x l]; simpl.
      * rewrite IH. split; [auto|by intros [_ ?]].
      * split; [done|]. by intros [[?|?] _].
Qed.

(** C8. [check_free_bender_cpu] returns true exactly when every list
    attribute other than [net_cpu] is empty; the [isolated] flag plays
    no part in the answer. *)
Theorem C8_free_predicate (self : CpuInfo) (b : bool) :
  (check_free_bender_cpu self = true
   <-> Forall (fun kv => kv.1 ∈ ["isolated"; "cpu_id"; "net_cpu"] \/ kv.2 = [])
              (lists self))
  /\ check_free_bender_cpu
       {| cpu_id := cpu_id self; isolated := b; lists := lists self |}
     = check_free_bender_cpu self.
Proof.
  split.
  - unfold check_free_bender_cpu, dict_items. simpl.
    rewrite !andb_false_r. apply check_free_loop_lists.
  - unfold check_free_bender_cpu, dict_items. simpl.
    by rewrite !andb_false_r.
Qed.

(** C8, as stated, fails: a CPU that is not isolated and has no role
    assignment is reported free. *)
Lemma C8_not_isolated_counterexample :
  isolated (CpuInfo_init 0) = false
  /\ check_free_bender_cpu (CpuInfo_init 0) = true.
Proof. split; reflexivity. Qed.

(** ** The instance configuration extractor *)

Section extractor.

Global Instance same_attribute_refl X : Reflexive (same_attribute X).
Proof. by intros cpu. Qed.

Global Instance same_attribute_trans X : Transitive (same_attribute X).
Proof. intros a b c H1 H2. unfold same_attribute in *. congruence. Qed.



Lemma xpath_step_absent root instance param CPUS :
  xpath root param.1 = [] ->
  xpath_step root instance param CPUS = (CPUS, Ok []).
Proof. unfold xpath_step. by intros ->. Qed.


End extractor.




(** ** The isolation check *)

Section isolation_check.







Lemma invalid_other invalid_cpus : other_description (msg_invalid_cpus invalid_cpus).
Proof. split; intros [= ?]. Qed.

End isolation_check.




(** * Further properties of the code *)

(** ** Range codec *)

Section codec_more.

Import PyStr.

Lemma ranges_loop_acc rest : forall start prev ranges,
  ranges_loop start prev rest ranges = ranges ++ ranges_loop start prev rest [].
Proof.
  induction rest as [|x rest IH]; intros start prev ranges; simpl; [done|].
  destruct (negb (x =? prev + 1)); [|apply IH].
  rewrite (IH x x (ranges ++ _)), (IH x x [_]). by rewrite <- app_assoc.
Qed.

(** The ranges that the loop of [convert_to_ranges] builds are separate
    runs, whatever the numbers. *)
Lemma ranges_loop_separate rest : forall start prev p,
  start <= prev -> p <> Some (start - 1) ->
  separate_runs p (ranges_loop start prev rest []).
Proof.
  induction rest as [|x rest IH]; intros start prev p Hle Hp; simpl; [done|].
  destruct (Z.eqb_spec x (prev + 1)) as [->|Hne]; simpl.
  - apply IH; [lia|done].
  - rewrite ranges_loop_acc. simpl. repeat split; [done|done|].
    apply IH; [lia|]. intros [= ->]. lia.
Qed.

Lemma split_app_sep sep s1 s2 :
  split sep (s1 +:+ String sep s2) = split sep s1 ++ split sep s2.
Proof.
  induction s1 as [|a s1 IH]; simpl.
  - by rewrite ascii_eqb_refl.
  - destruct (ascii_eqb a sep); [by rewrite IH|].
    rewrite IH. pose proof (split_not_nil sep s1).
    by destruct (split sep s1).
Qed.

Lemma remove_app c s1 s2 : remove c (s1 +:+ s2) = remove c s1 +:+ remove c s2.
Proof.
  induction s1 as [|a s1 IH]; simpl; [done|].
  destruct (ascii_eqb a c); [done|]. simpl. by rewrite IH.
Qed.

Lemma PyStr_remove_app_comma a b :
  split comma (remove newline (a +:+ String comma b))
  = split comma (remove newline a) ++ split comma (remove newline b).
Proof. rewrite remove_app. simpl. apply split_app_sep. Qed.

Lemma split_parts_absent sep s :
  Forall (fun t => contains sep t = false) (split sep s).
Proof.
  induction s as [|a s IH]; simpl; [by repeat constructor|].
  destruct (ascii_eqb a sep) eqn:E; [by constructor|].
  destruct (split sep s) as [|t ts]; [by repeat constructor; simpl; rewrite E|].
  inversion IH as [|? ? Ht Hts]; subst.
  constructor; [simpl; by rewrite E|done].
Qed.

Lemma lstrip_contains c s : contains c (lstrip s) = true -> contains c s = true.
Proof.
  induction s as [|a s IH]; simpl; [done|].
  destruct (is_space a); [|done].
  intros H. rewrite (IH H). by destruct (ascii_eqb a c).
Qed.

Lemma rstrip_contains c s : contains c (rstrip s) = true -> contains c s = true.
Proof.
  induction s as [|a s IH]; simpl; [done|].
  destruct (rstrip s) as [|b r] eqn:Hr.
  - destruct (is_space a); simpl; [done|].
    by destruct (ascii_eqb a c).
  - simpl. destruct (ascii_eqb a c); [done|]. intros H. by apply IH.
Qed.

Lemma strip_absent c s : contains c s = false -> contains c (strip s) = false.
Proof.
  intros H. destruct (contains c (strip s)) eqn:E; [|done].
  apply rstrip_contains, lstrip_contains in E. congruence.
Qed.

Lemma digit_val_nonneg c : is_digit c = true -> 0 <= digit_val c.
Proof. intros H%is_digit_range. unfold digit_val. lia. Qed.

Lemma parse_digits_nonneg s : forall acc prev n,
  0 <= acc -> parse_digits acc prev s = Some n -> 0 <= n.
Proof.
  induction s as [|a s IH]; intros acc prev n Hacc; simpl.
  - destruct prev; [by intros [= <-]|done].
  - destruct (is_digit a) eqn:Hd.
    + apply IH. pose proof (digit_val_nonneg a Hd). lia.
    + destruct (ascii_eqb a underscore && prev); [by apply IH|done].
Qed.

(** [int] of a text without hyphen is not negative. *)
Lemma int_nonneg s n : contains hyphen s = false -> int s = Ok n -> 0 <= n.
Proof.
  intros Hs%strip_absent. unfold int.
  destruct (strip s) as [|c body] eqn:Hstrip; [done|].
  simpl in Hs. destruct (ascii_eqb c "+") eqn:Hplus.
  - destruct (parse_digits 0 false body) as [m|] eqn:Hp; [|done].
    intros [= <-]. by eapply parse_digits_nonneg.
  - change (ascii_eqb c hyphen) with (ascii_eqb c "-") in Hs.
    destruct (ascii_eqb c "-"); [done|].
    destruct (parse_digits 0 false (String c body)) as [m|] eqn:Hp; [|done].
    intros [= <-]. by eapply parse_digits_nonneg.
Qed.

Lemma cpu_sorted_token_nonneg res tok res' :
  Forall (fun n => 0 <= n) res ->
  cpu_sorted_token res tok = Ok res' -> Forall (fun n => 0 <= n) res'.
Proof.
  intros Hres. unfold cpu_sorted_token.
  destruct (contains hyphen tok) eqn:Hc.
  - pose proof (split_parts_absent hyphen tok) as Hparts.
    destruct (split hyphen tok) as [|a [|b [|? ?]]]; try done.
    inversion Hparts as [|? ? Ha Hparts']; subst.
    destruct (int a) as [start|] eqn:Hstart; [|done].
    destruct (int b) as [end_|]; [|done]. simpl. intros [= <-].
    apply Forall_app; split; [done|].
    apply Forall_forall. unfold range. intros n Hn%elem_of_seqZ.
    pose proof (int_nonneg a start Ha Hstart). lia.
  - destruct (int tok) as [n|] eqn:Hn; [|done]. simpl. intros [= <-].
    apply Forall_app; split; [done|]. repeat constructor.
    by eapply int_nonneg.
Qed.

Lemma cpu_sorted_loop_nonneg toks : forall res l,
  Forall (fun n => 0 <= n) res ->
  cpu_sorted_loop toks res = Ok l -> Forall (fun n => 0 <= n) l.
Proof.
  induction toks as [|tok toks IH]; intros res l Hres; simpl.
  - by intros [= <-].
  - destruct (cpu_sorted_token res tok) as [res'|] eqn:Htok; [|done]. simpl.
    apply IH. by eapply cpu_sorted_token_nonneg.
Qed.

Lemma cpu_sorted_token_acc res tok :
  cpu_sorted_token res tok
  = let! l := cpu_sorted_token [] tok in Ok (res ++ l).
Proof.
  unfold cpu_sorted_token. destruct (contains hyphen tok).
  - destruct (split hyphen tok) as [|a [|b [|? ?]]]; try done.
    destruct (int a); [|done]. simpl. by destruct (int b).
  - by destruct (int tok).
Qed.

Lemma cpu_sorted_loop_acc toks : forall res,
  cpu_sorted_loop toks res
  = let! l := cpu_sorted_loop toks [] in Ok (res ++ l).
Proof.
  induction toks as [|tok toks IH]; intros res; simpl.
  - by rewrite app_nil_r.
  - rewrite (cpu_sorted_token_acc res).
    destruct (cpu_sorted_token [] tok) as [l|]; [|done]. simpl.
    rewrite (IH (res ++ l)), (IH l).
    destruct (cpu_sorted_loop toks []); [|done]. simpl. by rewrite app_assoc.
Qed.

Lemma cpu_sorted_loop_app toks1 toks2 : forall res,
  cpu_sorted_loop (toks1 ++ toks2) res
  = let! res' := cpu_sorted_loop toks1 res in cpu_sorted_loop toks2 res'.
Proof.
  induction toks1 as [|tok toks1 IH]; intros res; simpl; [done|].
  destruct (cpu_sorted_token res tok); [|done]. simpl. apply IH.
Qed.

End codec_more.

(** X1. Decoding an encoded list returns the list for every non-empty
    list of non-negative integers, also when it is not sorted or holds
    repeats. *)
Theorem X1_decode_encode_any_order (x : list Z)
    (Hne : x <> []) (Hpos : Forall (fun n => 0 <= n) x) :
  cpu_sorted (convert_to_ranges x) = Ok x.
Proof. by apply cpu_sorted_convert_to_ranges. Qed.

Lemma X1_decode_encode_any_order_witness :
  cpu_sorted (convert_to_ranges [3; 1; 1; 2; 0]) = Ok [3; 1; 1; 2; 0].
Proof.
  apply (X1_decode_encode_any_order [3; 1; 1; 2; 0]).
  - discriminate.
  - repeat constructor; lia.
Defined.



(** X3. Every number that [cpu_sorted] returns is non-negative. *)
Theorem X3_decoded_nonnegative (data_str : string) (l : list Z)
    (Hdecode : cpu_sorted data_str = Ok l) :
  Forall (fun n => 0 <= n) l.
Proof. eapply cpu_sorted_loop_nonneg; [constructor|exact Hdecode]. Qed.

Lemma X3_decoded_nonnegative_witness :
  Forall (fun n => 0 <= n) [4; 7; 8; 9; 10].
Proof. apply (X3_decoded_nonnegative "+4, 7 ,8-1_0"). reflexivity. Defined.

(** X4. Decoding two texts joined by a comma is decoding each and
    appending the results; it raises when either raises. *)
Theorem X4_decode_concat (a b : string) :
  cpu_sorted (a +:+ "," +:+ b)
  = let! x := cpu_sorted a in let! y := cpu_sorted b in Ok (x ++ y).
Proof.
  unfold cpu_sorted.
  change (a +:+ "," +:+ b) with (a +:+ String PyStr.comma b).
  rewrite PyStr_remove_app_comma, cpu_sorted_loop_app.
  destruct (cpu_sorted_loop _ []) as [x|]; [|done]. simpl.
  by rewrite cpu_sorted_loop_acc.
Qed.

(** X5. For every non-empty list, [convert_to_ranges] prints a
    decomposition of the list into separate runs: runs that are not
    empty, none continuing the one before, whose numbers in order are
    the list. *)
Theorem X5_encode_prints_runs (x : list Z) (Hne : x <> []) :
  exists rs,
    separate_runs None rs
    /\ expand_ranges rs = x
    /\ convert_to_ranges x = PyStr.join "," (map format_range rs).
Proof.
  destruct x as [|n0 rest]; [done|].
  exists (ranges_loop n0 n0 rest []). split; [|split; [|done]].
  - by apply ranges_loop_separate.
  - rewrite ranges_loop_expand by lia. simpl.
    replace (n0 + 1 - n0) with 1 by lia. done.
Qed.

Lemma X5_encode_prints_runs_witness :
  exists rs,
    separate_runs None rs
    /\ expand_ranges rs = [0; 1; 2; 5; 4; 5]
    /\ convert_to_ranges [0; 1; 2; 5; 4; 5]
       = PyStr.join "," (map format_range rs).
Proof. apply (X5_encode_prints_runs [0; 1; 2; 5; 4; 5]). discriminate. Defined.

(** ** The registry *)

Section registry_more.

(** Relations that every update of an attribute keeps. *)
Context (r : CpuInfo -> CpuInfo -> Prop).
Context `{!Reflexive r, !Transitive r}.
Hypothesis r_update_any : forall cpu p v cpu',
  update_attribute cpu p v = Ok cpu' -> r cpu cpu'.

Lemma r_update_True cpu p v cpu' :
  True -> update_attribute cpu p v = Ok cpu' -> r cpu cpu'.
Proof. intros _. apply r_update_any. Qed.

Lemma update_cpus_preserves_any cores_list p v :
  preserves r (update_cpus cores_list p v).
Proof. by apply (update_cpus_preserves r (fun _ => True) r_update_True). Qed.

Lemma get_cpu_info_bender_preserves_any instance root :
  preserves r (get_cpu_info_bender instance root).
Proof.
  apply (get_cpu_info_bender_preserves r (fun _ => True)).
  - apply r_update_True.
  - by apply Forall_forall.
  - by apply Forall_forall.
  - by apply Forall_forall.
Qed.

Lemma info_errors_loop_preserves_any instances : forall cpus_err,
  preserves r (info_errors_loop instances cpus_err).
Proof.
  induction instances as [|[instance root] instances IH]; intros cpus_err.
  - apply (preserves_ret r).
  - simpl. apply (preserves_bind r); [apply get_cpu_info_bender_preserves_any|].
    intros [e|]; apply IH.
Qed.

Lemma get_info_about_cpus_preserves_any instances :
  preserves r (get_info_about_cpus instances).
Proof.
  unfold get_info_about_cpus.
  apply (preserves_bind r); [apply info_errors_loop_preserves_any|].
  intros cpus_err CPUS. apply (Forall2_r_refl r).
Qed.

Lemma get_network_cpu_preserves_any interfaces :
  preserves r (get_network_cpu interfaces).
Proof.
  induction interfaces as [|[interface texts] interfaces IH].
  - apply (preserves_ret r).
  - simpl. apply (preserves_bind r); [apply (preserves_lift r)|].
    intros net_cpus. apply (preserves_bind r); [|by intros _].
    destruct (nonempty net_cpus); [|apply (preserves_ret r)].
    destruct (nonempty (sorted_set net_cpus)); [|apply (preserves_ret r)].
    apply (preserves_bind r); [apply update_cpus_preserves_any|].
    intros dropped. apply (preserves_ret r).
Qed.

Lemma check_isolation_parameters_preserves_any zabbix f :
  preserves r (check_isolation_parameters zabbix f).
Proof.
  unfold check_isolation_parameters.
  destruct (zabbix && check_group f _); [apply (preserves_ret r)|].
  destruct (zabbix && _); [apply (preserves_ret r)|].
  apply (preserves_bind r); [apply get_info_about_cpus_preserves_any|].
  intros info. apply (preserves_bind r); [apply (preserves_lift r)|].
  intros ds. apply (preserves_ret r).
Qed.

End registry_more.

Section registry_growth.

Global Instance only_grows_refl : Reflexive only_grows.
Proof. intros cpu. by repeat split. Qed.

Global Instance only_grows_trans : Transitive only_grows.
Proof.
  intros a b c (H1 & H2 & H3) (H4 & H5 & H6). split; [congruence|].
  split; [auto|]. intros k. by transitivity (default [] (assoc_get k (lists b))).
Qed.

Lemma update_attribute_grows cpu p v cpu' :
  update_attribute cpu p v = Ok cpu' -> only_grows cpu cpu'.
Proof.
  intros (_ & ->)%update_attribute_Ok. split; [done|]. split; [done|].
  intros k. simpl. destruct (decide (p = k)) as [->|Hne].
  - rewrite assoc_get_set_eq. simpl. by apply prefix_app_r.
  - by rewrite assoc_get_set_ne.
Qed.

Lemma mark_isolated_nil cpu : mark_isolated [] cpu = cpu.
Proof. unfold mark_isolated. simpl. rewrite orb_false_r. by destruct cpu. Qed.

Lemma get_isolated_cpu_mark file_text o CPUS :
  get_system_isolated_cpus file_text = Ok o ->
  get_isolated_cpu file_text CPUS
  = (map (mark_isolated (default [] o)) CPUS, Ok tt).
Proof.
  intros H. unfold get_isolated_cpu. rewrite H.
  destruct o as [[|x l]|]; simpl.
  - f_equal. induction CPUS as [|cpu CPUS IH]; simpl; [done|].
    by rewrite mark_isolated_nil, <- IH.
  - f_equal. apply map_ext. intros cpu. unfold mark_isolated.
    destruct (bool_decide (cpu_id cpu ∈ x :: l)).
    + by rewrite orb_true_r.
    + rewrite orb_false_r. by destruct cpu.
  - f_equal. induction CPUS as [|cpu CPUS IH]; simpl; [done|].
    by rewrite mark_isolated_nil, <- IH.
Qed.

Lemma get_isolated_cpu_grows file_text :
  preserves only_grows (get_isolated_cpu file_text).
Proof.
  intros CPUS.
  destruct (get_system_isolated_cpus file_text) as [o|e] eqn:H.
  - rewrite (get_isolated_cpu_mark _ o) by done. simpl.
    apply Forall2_fmap_r, Forall_Forall2_diag, Forall_forall.
    intros cpu _. split; [done|]. split; [|done].
    simpl. by intros ->.
  - unfold get_isolated_cpu. rewrite H. apply (Forall2_r_refl _).
Qed.

Lemma run_call_grows c CPUS : Forall2 only_grows CPUS (run_call c CPUS).
Proof.
  destruct c; simpl.
  - apply (update_cpus_preserves_any _ update_attribute_grows).
  - apply get_isolated_cpu_grows.
  - apply (get_cpu_info_bender_preserves_any _ update_attribute_grows).
  - apply (get_info_about_cpus_preserves_any _ update_attribute_grows).
  - apply (get_network_cpu_preserves_any _ update_attribute_grows).
  - apply (check_isolation_parameters_preserves_any _ update_attribute_grows).
Qed.

Lemma update_cpus_loop_errs cores_list p v : forall errs CPUS,
  update_cpus_loop cores_list p v errs CPUS
  = (do! e := update_cpus_loop cores_list p v [] in mret (errs ++ e)) CPUS.
Proof.
  induction cores_list as [|c cores_list IH]; intros errs CPUS; simpl.
  - unfold mbind, mret. by rewrite app_nil_r.
  - unfold mbind, mlift, mret.
    destruct (int_of_core c) as [cid|e]; [|done].
    destruct (get_cpu_by_id cid CPUS) as [[i cpu]|].
    + destruct (update_attribute cpu p v) as [cpu'|e]; [|done].
      rewrite IH. by unfold mbind, mret.
    + rewrite IH, (IH [_]). unfold mbind, mret.
      destruct (update_cpus_loop cores_list p v [] CPUS) as [CPUS' [e|e]];
        [|done].
      by rewrite <- app_assoc.
Qed.

Lemma update_cpus_loop_app a b p v : forall errs CPUS,
  update_cpus_loop (a ++ b) p v errs CPUS
  = (do! e := update_cpus_loop a p v errs in update_cpus_loop b p v e) CPUS.
Proof.
  induction a as [|c a IH]; intros errs CPUS; simpl; [done|].
  unfold mbind, mlift. destruct (int_of_core c) as [cid|e]; [|done].
  destruct (get_cpu_by_id cid CPUS) as [[i cpu]|].
  - destruct (update_attribute cpu p v) as [cpu'|e]; [|done].
    rewrite IH. by unfold mbind.
  - rewrite IH. by unfold mbind.
Qed.

End registry_growth.

(** X6. [get_isolated_cpu] sets the flag of exactly the entries whose
    id is in the decoded list of the kernel and changes nothing else;
    ids of the list that no entry has are ignored, an empty file
    changes nothing, and a second run changes nothing more. *)
Theorem X6_get_isolated_cpu (file_text : string) (o : option (list Z))
    (CPUS : list CpuInfo)
    (Hread : get_system_isolated_cpus file_text = Ok o) :
  let CPUS' := map (mark_isolated (default [] o)) CPUS in
  get_isolated_cpu file_text CPUS = (CPUS', Ok tt)
  /\ get_isolated_cpu file_text CPUS' = (CPUS', Ok tt)
  /\ get_isolated_cpu "" CPUS = (CPUS, Ok tt).
Proof.
  simpl. split; [by apply get_isolated_cpu_mark|]. split; [|done].
  rewrite (get_isolated_cpu_mark _ o) by done. f_equal.
  rewrite map_map. apply map_ext. intros cpu. unfold mark_isolated. simpl.
  by destruct (isolated cpu), (bool_decide _).
Qed.

Lemma X6_get_isolated_cpu_witness :
  let CPUS := [CpuInfo_init 0; CpuInfo_init 1; CpuInfo_init 2] in
  let CPUS' := map (mark_isolated [1; 2; 3; 9]) CPUS in
  get_isolated_cpu "1-3,9" CPUS = (CPUS', Ok tt)
  /\ get_isolated_cpu "1-3,9" CPUS' = (CPUS', Ok tt)
  /\ get_isolated_cpu "" CPUS = (CPUS, Ok tt).
Proof.
  intros CPUS.
  apply (X6_get_isolated_cpu "1-3,9" (Some [1; 2; 3; 9]) CPUS).
  reflexivity.
Defined.

(** X7. In the registry that [get_all_cpus] makes, [get_cpu_by_id]
    finds an id exactly when the decoded list of online CPUs holds it,
    and then returns the fresh entry at the position of the first
    occurrence of the id. *)
Theorem X7_lookup_after_creation (file_text : string) (ids : list Z) (cid : Z)
    (Hdecode : cpu_sorted file_text = Ok ids) :
  exists CPUS,
    get_all_cpus file_text = Ok CPUS
    /\ (cid ∉ ids -> get_cpu_by_id cid CPUS = None)
    /\ (cid ∈ ids ->
        exists i, get_cpu_by_id cid CPUS = Some (i, CpuInfo_init cid)
                  /\ ids !! i = Some cid
                  /\ forall j, (j < i)%nat -> ids !! j <> Some cid).
Proof.
  exists (map CpuInfo_init ids). split; [by apply get_all_cpus_Ok|].
  unfold get_cpu_by_id. split.
  - intros Hnot. apply list_find_None, Forall_forall.
    intros cpu (id & -> & Hid)%list_elem_of_fmap. simpl. by intros ->.
  - intros Hin. apply list_elem_of_lookup in Hin as [k Hk].
    destruct (list_find (fun cpu => cpu_id cpu = cid) (map CpuInfo_init ids))
      as [[i cpu]|] eqn:Hfind.
    + apply list_find_Some in Hfind as (Hi & Hcpu & Hfirst).
      change map with (@fmap list _) in Hi.
      rewrite list_lookup_fmap in Hi.
      destruct (ids !! i) as [id|] eqn:Hid; [|done].
      simpl in Hi. injection Hi as <-. simpl in Hcpu. subst id.
      exists i. split; [done|]. split; [done|].
      intros j Hj Hjc. apply (Hfirst j (CpuInfo_init cid)); [|done|done].
      change map with (@fmap list _). by rewrite list_lookup_fmap, Hjc.
    + apply list_find_None in Hfind. rewrite Forall_forall in Hfind.
      exfalso. apply (Hfind (CpuInfo_init cid)); [|done].
      apply list_elem_of_fmap. exists cid. split; [done|].
      by eapply list_elem_of_lookup_2.
Qed.

Lemma X7_lookup_after_creation_witness :
  exists CPUS,
    get_all_cpus "0-3,2" = Ok CPUS
    /\ (2 ∉ [0; 1; 2; 3; 2] -> get_cpu_by_id 2 CPUS = None)
    /\ (2 ∈ [0; 1; 2; 3; 2] ->
        exists i, get_cpu_by_id 2 CPUS = Some (i, CpuInfo_init 2)
                  /\ [0; 1; 2; 3; 2] !! i = Some 2
                  /\ forall j, (j < i)%nat -> [0; 1; 2; 3; 2] !! j <> Some 2).
Proof. apply (X7_lookup_after_creation "0-3,2" [0; 1; 2; 3; 2] 2). reflexivity. Defined.

(** X8. A batch over two lists of cores put end to end is the batch
    over the first followed by the batch over the second, the messages
    of the two appended; when the first raises the second is not run. *)
Theorem X8_update_cpus_concat (a b : list core) (upd_param upd_instance : string)
    (CPUS : list CpuInfo) :
  update_cpus (a ++ b) upd_param upd_instance CPUS
  = (do! ea := update_cpus a upd_param upd_instance in
     do! eb := update_cpus b upd_param upd_instance in
     mret (ea ++ eb)) CPUS.
Proof.
  unfold update_cpus. rewrite update_cpus_loop_app. unfold mbind.
  destruct (update_cpus_loop a upd_param upd_instance [] CPUS) as [CPUS' [ea|e]];
    [|done].
  rewrite update_cpus_loop_errs. by unfold mbind.
Qed.

(** X9. When a core of the batch is not an integer literal, the call
    raises [ValueError] at that core: the values appended for the cores
    before it stay in [CPUS], and the messages collected so far are
    lost. *)
Theorem X9_update_cpus_partial (a b : list core) (c : core)
    (upd_param upd_instance : string) (CPUS CPUS' : list CpuInfo)
    (errs : list string)
    (Hbefore : update_cpus a upd_param upd_instance CPUS = (CPUS', Ok errs))
    (Hbad : int_of_core c = Raise ValueError) :
  update_cpus (a ++ c :: b) upd_param upd_instance CPUS
  = (CPUS', Raise ValueError).
Proof.
  unfold update_cpus in *. rewrite update_cpus_loop_app. unfold mbind.
  rewrite Hbefore. simpl. unfold mbind, mlift. by rewrite Hbad.
Qed.

Lemma X9_update_cpus_partial_witness :
  update_cpus ([CInt 0; CInt 7] ++ CStr "x" :: [CInt 1]) "Kafka" "BS1"
    [CpuInfo_init 0; CpuInfo_init 1]
  = ([appended (CpuInfo_init 0) "Kafka" ["BS1"]; CpuInfo_init 1],
     Raise ValueError).
Proof.
  apply (X9_update_cpus_partial [CInt 0; CInt 7] [CInt 1] (CStr "x") "Kafka" "BS1"
           [CpuInfo_init 0; CpuInfo_init 1] _ ["Kafka cpu 7 doesnt exist"]).
  - reflexivity.
  - reflexivity.
Defined.

(** X10. Whatever sequence of [update_cpus], [get_isolated_cpu],
    [get_cpu_info_bender], [get_info_about_cpus], [get_network_cpu] and
    [check_isolation_parameters] runs, returning or raising: no entry
    is added or removed, no id changes, an isolated entry stays
    isolated, and every list of every entry keeps what it held as a
    prefix: values are only ever appended. *)
Theorem X10_registry_only_grows (calls : list registry_call)
    (CPUS : list CpuInfo) :
  Forall2 only_grows CPUS (run_calls calls CPUS).
Proof.
  revert CPUS. induction calls as [|c calls IH]; intros CPUS; simpl.
  - apply (Forall2_r_refl _).
  - eapply (Forall2_r_trans _); [apply run_call_grows|apply IH].
Qed.

(** ** Network interrupt affinity *)

Section network.










End network.



(** ** Views of an entry *)

Section views.

Lemma zabbix_loop_id_other items : forall output pc,
  Forall (fun kv => kv.1 <> "cpu_id") items ->
  macro_cpu_id (zabbix_macros_loop items output pc) = macro_cpu_id output.
Proof.
  induction items as [|[k v] items IH]; intros output pc Hk; simpl; [done|].
  inversion Hk as [|? ? Hk1 Hk']; subst. simpl in Hk1.
  destruct (truthy v); [|by apply IH].
  rewrite bool_decide_eq_false_2 by done.
  destruct (negb _); by rewrite IH.
Qed.

(** The loop of [zabbix_macros_view] over the list attributes. *)
Lemma zabbix_loop_usage (ls : list (string * list string)) : forall output pc,
  Forall (fun kv => reserved kv.1 = false) ls ->
  macro_cpu_usage
    (zabbix_macros_loop (map (fun kv => (kv.1, VList kv.2)) ls) output pc)
  = match filter (fun kv => nonempty kv.2 = true /\ kv.1 <> "net_cpu") ls with
    | [] => macro_cpu_usage output
    | busy => Some (PyStr.join ";" (pc ++ map format_service busy))
    end.
Proof.
  induction ls as [|[k l] ls IH]; intros output pc Hres; simpl; [done|].
  inversion Hres as [|? ? Hk Hres']; subst. simpl in Hk.
  apply orb_false_iff in Hk as [Hk1 Hk2].
  apply bool_decide_eq_false in Hk1. apply bool_decide_eq_false in Hk2.
  rewrite filter_cons.
  destruct l as [|x l].
  { rewrite decide_False by by intros [? _]. simpl. by apply IH. }
  cbn [truthy length Nat.eqb negb].
  rewrite (bool_decide_eq_false_2 (k = "cpu_id")) by done.
  destruct (decide (k = "net_cpu")) as [->|Hnet].
  - rewrite decide_False by by intros [_ ?].
    rewrite bool_decide_eq_true_2 by (right; left). cbn [negb].
    by apply IH.
  - rewrite decide_True by done.
    rewrite bool_decide_eq_false_2.
    2:{ intros [->|[->|H]%elem_of_cons]%elem_of_cons;
          [done|done|by apply not_elem_of_nil in H]. }
    cbn [negb]. rewrite IH by done. cbn [macro_cpu_usage].
    change (k +:+ ":" +:+ PyStr.join "," (x :: l))
      with (format_service (k, x :: l)).
    destruct (filter _ ls) as [|kv busy].
    + done.
    + cbn [map]. by rewrite <- app_assoc.
Qed.

Lemma check_free_loop_busy (ls : list (string * list string)) :
  Forall (fun kv => reserved kv.1 = false) ls ->
  check_free_loop (map (fun kv => (kv.1, VList kv.2)) ls) = true
  <-> filter (fun kv => nonempty kv.2 = true /\ kv.1 <> "net_cpu") ls = [].
Proof.
  intros Hres. rewrite check_free_loop_lists.
  induction Hres as [|[k l] ls Hk Hres IH]; simpl.
  - split; [done|constructor].
  - rewrite Forall_cons, filter_cons, IH. simpl in *.
    apply orb_false_iff in Hk as [Hk1 Hk2].
    apply bool_decide_eq_false in Hk1. apply bool_decide_eq_false in Hk2.
    destruct (decide (nonempty l = true /\ k <> "net_cpu")) as [[Hl Hn]|Hno].
    + split; [|done]. intros [[Hin| ->] _]; [|done].
      apply elem_of_cons in Hin as [->|Hin]; [done|].
      apply elem_of_cons in Hin as [->|Hin]; [done|].
      apply elem_of_cons in Hin as [->|Hin]; [done|].
      by apply not_elem_of_nil in Hin.
    + split; [by intros [_ ?]|]. intros Hf. split; [|done].
      destruct l as [|x l]; [by right|]. left.
      destruct (decide (k = "net_cpu")) as [->|Hn].
      * do 2 right. left.
      * exfalso. by apply Hno.
Qed.

End views.

(** X12. For an entry without lists under reserved names: the
    dictionary of [zabbix_macros_view] has the key for the CPU id
    exactly when the id is not 0, and the key for the usage exactly
    when [check_free_bender_cpu] is false; the usage is then the
    non-empty lists other than [net_cpu], in the order of the
    attributes, each as [name:value,value], joined by semicolons. *)
Theorem X12_zabbix_macros_view (self : CpuInfo)
    (Hres : Forall (fun kv => reserved kv.1 = false) (lists self)) :
  macro_cpu_id (zabbix_macros_view self)
    = (if cpu_id self =? 0 then None else Some (VInt (cpu_id self)))
  /\ (macro_cpu_usage (zabbix_macros_view self) = None
      <-> check_free_bender_cpu self = true)
  /\ macro_cpu_usage (zabbix_macros_view self)
     = match service_lists self with
       | [] => None
       | busy => Some (PyStr.join ";" (map format_service busy))
       end.
Proof.
  assert (macro_cpu_usage (zabbix_macros_view self)
          = match service_lists self with
            | [] => None
            | busy => Some (PyStr.join ";" (map format_service busy))
            end) as Husage.
  { unfold zabbix_macros_view, dict_items. simpl.
    destruct (cpu_id self =? 0); simpl;
      (destruct (isolated self); simpl; by rewrite zabbix_loop_usage). }
  split; [|split; [|done]].
  - unfold zabbix_macros_view, dict_items. simpl.
    assert (Forall (fun kv : string * value => kv.1 <> "cpu_id")
              (map (fun kv => (kv.1, VList kv.2)) (lists self))) as Hk.
    { apply Forall_map. eapply Forall_impl; [exact Hres|].
      intros [k l] Hr. simpl in *. intros ->. done. }
    destruct (cpu_id self =? 0); simpl;
      (destruct (isolated self); simpl; by rewrite zabbix_loop_id_other).
  - rewrite Husage. unfold check_free_bender_cpu, dict_items. simpl.
    rewrite !andb_false_r. rewrite check_free_loop_busy by done.
    unfold service_lists. by destruct (filter _ (lists self)).
Qed.

Lemma X12_zabbix_macros_view_witness :
  let self := appended (appended (appended (CpuInfo_init 0) "Kafka" ["A"; "B"])
                          "TrashCPU" ["C"]) "net_cpu" ["eth0"] in
  macro_cpu_id (zabbix_macros_view self)
    = (if cpu_id self =? 0 then None else Some (VInt (cpu_id self)))
  /\ (macro_cpu_usage (zabbix_macros_view self) = None
      <-> check_free_bender_cpu self = true)
  /\ macro_cpu_usage (zabbix_macros_view self) = Some "TrashCPU:C;Kafka:A,B".
Proof.
  intros self. apply (X12_zabbix_macros_view self).
  repeat constructor.
Defined.

(** ** Messages for Zabbix *)

Section zabbix_msg.

Import PyStr.

Lemma remove_self c s : contains c (remove c s) = false.
Proof.
  induction s as [|a s IH]; simpl; [done|].
  destruct (ascii_eqb a c) eqn:E; [done|]. simpl. by rewrite E.
Qed.

Lemma remove_keeps_absent c c' s :
  contains c s = false -> contains c (remove c' s) = false.
Proof.
  induction s as [|a s IH]; simpl; [done|].
  destruct (ascii_eqb a c) eqn:E; [done|]. intros H.
  destruct (ascii_eqb a c'); [by apply IH|]. simpl. rewrite E. by apply IH.
Qed.

Lemma replace_char_self c d s :
  ascii_eqb d c = false -> contains c (replace_char c d s) = false.
Proof.
  intros Hd. induction s as [|a s IH]; simpl; [done|].
  destruct (ascii_eqb a c) eqn:E; by rewrite ?Hd, ?E.
Qed.

Lemma replace_char_keeps_absent c c' d s :
  ascii_eqb d c = false -> contains c s = false ->
  contains c (replace_char c' d s) = false.
Proof.
  intros Hd. induction s as [|a s IH]; simpl; [done|].
  destruct (ascii_eqb a c) eqn:E; [done|]. intros H.
  destruct (ascii_eqb a c'); rewrite ?Hd, ?E; by apply IH.
Qed.

Lemma replace_from_keeps_absent c old new s : forall skip,
  contains c new = false -> contains c s = false ->
  contains c (replace_from old new skip s) = false.
Proof.
  induction s as [|a s IH]; intros skip Hnew; simpl; [done|].
  destruct (ascii_eqb a c) eqn:E; [done|]. intros H.
  destruct skip as [|k]; [|by apply IH].
  match goal with |- context [if ?b then _ else _] => destruct b end.
  - rewrite contains_app, Hnew. simpl. by apply IH.
  - simpl. rewrite E. by apply IH.
Qed.

Lemma substring_keeps_absent c s : forall n m,
  contains c s = false -> contains c (String.substring n m s) = false.
Proof.
  induction s as [|a s IH]; intros n m; simpl.
  - by destruct n, m.
  - destruct (ascii_eqb a c) eqn:E; [done|]. intros H.
    destruct n as [|n]; [|by apply IH].
    destruct m as [|m]; [done|]. simpl. rewrite E. by apply IH.
Qed.

Lemma substring_length_le s : forall m,
  (String.length (String.substring 0 m s) <= m)%nat.
Proof.
  induction s as [|a s IH]; intros [|m]; simpl; try lia.
  specialize (IH m). lia.
Qed.

Lemma substring_short s : forall m,
  (String.length s <= m)%nat -> String.substring 0 m s = s.
Proof.
  induction s as [|a s IH]; intros [|m]; simpl; try done; try lia.
  intros H. rewrite IH; [done|lia].
Qed.

Lemma replace_from_absent c old s :
  contains c s = false ->
  replace_from (String c old) " " 0 s = s.
Proof.
  induction s as [|a s IH]; simpl; [done|].
  destruct (ascii_eqb a c) eqn:E; [done|]. intros H.
  destruct (ascii_dec c a) as [->|Hne].
  - by rewrite ascii_eqb_refl in E.
  - by rewrite IH.
Qed.

End zabbix_msg.

(** X13. What [safe_zabbix_msg] returns has at most 1024 characters
    and holds no backslash, quote, double quote, line feed, brace or
    tab; a message of at most 1024 characters that holds none of these
    is returned as it is. *)
Theorem X13_safe_zabbix_msg (msg : string) :
  (String.length (safe_zabbix_msg msg) <= 1024)%nat
  /\ Forall (fun c => PyStr.contains c (safe_zabbix_msg msg) = false)
            unsafe_chars
  /\ (Forall (fun c => PyStr.contains c msg = false) unsafe_chars ->
      (String.length msg <= 1024)%nat -> safe_zabbix_msg msg = msg).
Proof.
  split; [apply substring_length_le|]. split.
  - unfold unsafe_chars, safe_zabbix_msg.
    repeat constructor;
      repeat first
        [ apply substring_keeps_absent
        | apply replace_char_self; reflexivity
        | apply replace_char_keeps_absent; [reflexivity|]
        | apply replace_from_keeps_absent; [reflexivity|]
        | apply remove_self
        | apply remove_keeps_absent ].
  - intros Habs Hlen. unfold unsafe_chars in Habs.
    inversion Habs as [|? ? H1 Habs1]; subst.
    inversion Habs1 as [|? ? H2 Habs2]; subst.
    inversion Habs2 as [|? ? H3 Habs3]; subst.
    inversion Habs3 as [|? ? H4 Habs4]; subst.
    inversion Habs4 as [|? ? H5 Habs5]; subst.
    inversion Habs5 as [|? ? H6 Habs6]; subst.
    inversion Habs6 as [|? ? H7 _]; subst.
    unfold safe_zabbix_msg.
    rewrite (remove_absent PyRepr.backslash msg) by done.
    rewrite (remove_absent PyRepr.squote msg) by done.
    rewrite (remove_absent PyRepr.dquote msg) by done.
    assert (forall c d s, PyStr.contains c s = false -> replace_char c d s = s)
      as Hrc.
    { intros c d s. induction s as [|a s IH]; simpl; [done|].
      destruct (PyStr.ascii_eqb a c); [done|]. intros H. by rewrite IH. }
    rewrite (Hrc PyStr.newline _ msg) by done.
    rewrite replace_from_absent by done.
    rewrite (Hrc "{"%char _ msg) by done.
    rewrite (Hrc "}"%char _ msg) by done.
    rewrite (Hrc tab _ msg) by done.
    by apply substring_short.
Qed.

Lemma X13_safe_zabbix_msg_witness :
  (String.length (safe_zabbix_msg "Invalid cpus: BS1") <= 1024)%nat
  /\ Forall (fun c => PyStr.contains c (safe_zabbix_msg "Invalid cpus: BS1") = false)
            unsafe_chars
  /\ (Forall (fun c => PyStr.contains c "Invalid cpus: BS1" = false) unsafe_chars ->
      (String.length "Invalid cpus: BS1" <= 1024)%nat ->
      safe_zabbix_msg "Invalid cpus: BS1" = "Invalid cpus: BS1").
Proof. apply (X13_safe_zabbix_msg "Invalid cpus: BS1"). Defined.

(** ** The CPUs of an instance *)

Section instance_info.

Lemma instance_info_add_list bs cid acc k l :
  instance_info_add bs cid acc (k, VList l)
  = if bool_decide (bs ∈ l)
    then <[k := default [] (acc !! k) ++ [cid]]> acc
    else acc.
Proof.
  unfold instance_info_add. simpl. destruct (bool_decide (bs ∈ l)); [|done].
  by destruct (acc !! k) as [[|x ids]|].
Qed.

Lemma fold_instance_info_lists bs cid role (ls : list (string * list string)) :
  forall acc : gmap string (list Z),
  NoDup (map fst ls) ->
  fold_left (instance_info_add bs cid)
    (filter (fun kv : string * value =>
               bool_decide (kv.1 = "cpu_id") || truthy kv.2 = true)
            (map (fun kv => (kv.1, VList kv.2)) ls)) acc !! role
  = if match assoc_get role ls with
       | Some l => bool_decide (bs ∈ l)
       | None => false
       end
    then Some (default [] (acc !! role) ++ [cid])
    else acc !! role.
Proof.
  induction ls as [|[k l] ls IH]; intros acc Hnd; [done|].
  apply NoDup_cons in Hnd as [Hk Hnd]. cbn [map fst snd].
  assert (fold_left (instance_info_add bs cid)
            (filter (fun kv : string * value =>
                       bool_decide (kv.1 = "cpu_id") || truthy kv.2 = true)
                    ((k, VList l)
                     :: map (fun kv => (kv.1, VList kv.2)) ls)) acc
          = fold_left (instance_info_add bs cid)
              (filter (fun kv : string * value =>
                         bool_decide (kv.1 = "cpu_id") || truthy kv.2 = true)
                      (map (fun kv => (kv.1, VList kv.2)) ls))
              (instance_info_add bs cid acc (k, VList l))) as ->.
  { rewrite filter_cons. case_decide as HP; [done|].
    rewrite instance_info_add_list.
    destruct l as [|x l]; [done|].
    exfalso. apply HP. simpl. apply orb_true_r. }
  rewrite IH by done. rewrite instance_info_add_list. cbn [assoc_get].
  destruct (decide (k = role)) as [Hkr|Hkr].
  - rewrite (bool_decide_eq_true_2 (k = role)) by done. subst k.
    assert (assoc_get role ls = None) as ->.
    { destruct (assoc_get role ls) as [l'|] eqn:Hl; [|done].
      exfalso. apply Hk. apply assoc_get_elem_of in Hl.
      apply list_elem_of_fmap. by exists (role, l'). }
    destruct (bool_decide (bs ∈ l)); [|done].
    by rewrite lookup_insert_eq.
  - rewrite (bool_decide_eq_false_2 (k = role)) by done.
    destruct (bool_decide (bs ∈ l)); [|done].
    by rewrite lookup_insert_ne.
Qed.

Lemma fold_instance_info_cpu bs role cpu (acc : gmap string (list Z)) :
  NoDup (map fst (lists cpu)) ->
  fold_left (instance_info_add bs (cpu_id cpu)) (human_show cpu) acc !! role
  = if assigned bs role cpu
    then Some (default [] (acc !! role) ++ [cpu_id cpu])
    else acc !! role.
Proof.
  intros Hnd. unfold human_show, dict_items, assigned.
  rewrite !filter_cons. cbn [fst snd].
  rewrite decide_True by done.
  assert (forall items, fold_left (instance_info_add bs (cpu_id cpu))
            (("cpu_id", VInt (cpu_id cpu)) :: items) acc
          = fold_left (instance_info_add bs (cpu_id cpu)) items acc) as ->
    by done.
  case_decide.
  - assert (forall items, fold_left (instance_info_add bs (cpu_id cpu))
              (("isolated", VBool (isolated cpu)) :: items) acc
            = fold_left (instance_info_add bs (cpu_id cpu)) items acc) as ->
      by done.
    by apply fold_instance_info_lists.
  - by apply fold_instance_info_lists.
Qed.

Lemma fold_instance_info bs role (CPUS : list CpuInfo) :
  forall acc : gmap string (list Z),
  Forall (fun cpu => NoDup (map fst (lists cpu))) CPUS ->
  fold_left (fun acc cpu =>
               fold_left (instance_info_add bs (cpu_id cpu)) (human_show cpu) acc)
            CPUS acc !! role
  = match map cpu_id (filter (fun cpu => assigned bs role cpu = true) CPUS) with
    | [] => acc !! role
    | ids => Some (default [] (acc !! role) ++ ids)
    end.
Proof.
  induction CPUS as [|cpu CPUS IH]; intros acc Hnd; [done|].
  inversion Hnd as [|? ? Hcpu Hnd']; subst.
  cbn [fold_left]. rewrite IH by done. rewrite fold_instance_info_cpu by done.
  rewrite filter_cons.
  destruct (assigned bs role cpu) eqn:Ha.
  - rewrite decide_True by done. simpl.
    destruct (map cpu_id (filter _ CPUS)) as [|id ids]; [done|].
    by rewrite <- app_assoc.
  - by rewrite decide_False by done.
Qed.

End instance_info.

(** X14. For a registry whose entries have no attribute twice,
    [get_instance_info] maps every role to the ids, in the order of
    [CPUS], of the entries whose list for the role holds the instance,
    and has no key for a role that no entry gives to the instance. *)
Theorem X14_get_instance_info (bs role : string) (CPUS : list CpuInfo)
    (Hkeys : Forall (fun cpu => NoDup (map fst (lists cpu))) CPUS) :
  (get_instance_info bs CPUS).1 = bs
  /\ (get_instance_info bs CPUS).2 !! role
     = match map cpu_id (filter (fun cpu => assigned bs role cpu = true) CPUS) with
       | [] => None
       | ids => Some ids
       end.
Proof.
  split; [done|]. unfold get_instance_info. cbn [snd].
  rewrite fold_instance_info by done. rewrite lookup_empty.
  by destruct (map cpu_id _).
Qed.

Lemma X14_get_instance_info_witness :
  let CPUS := [appended (CpuInfo_init 0) "Kafka" ["BS1"];
               appended (CpuInfo_init 1) "Kafka" ["BS2"];
               appended (CpuInfo_init 2) "Kafka" ["BS2"; "BS1"]] in
  (get_instance_info "BS1" CPUS).1 = "BS1"
  /\ (get_instance_info "BS1" CPUS).2 !! "Kafka" = Some [0; 2].
Proof.
  intros CPUS. apply (X14_get_instance_info "BS1" "Kafka" CPUS).
  repeat constructor; apply (bool_decide_unpack _); reflexivity.
Defined.

(** ** The descriptions of the check *)

Section check_more.

Lemma elem_of_when d b d' : d ∈ when b d' <-> b = true /\ d = d'.
Proof.
  destruct b; simpl.
  - rewrite list_elem_of_singleton. split; [done|by intros [_ ?]].
  - split; [by intros ?%not_elem_of_nil|by intros [? _]].
Qed.

Lemma elem_of_opt_list d prefix o :
  d ∈ opt_list prefix o <-> exists s, o = Some s /\ d = prefix +:+ s.
Proof.
  destruct o as [s|]; simpl.
  - rewrite list_elem_of_singleton. split; [by exists s|].
    by intros (? & [= ->] & ?).
  - split; [by intros ?%not_elem_of_nil|by intros (? & ? & _)].
Qed.

(** What a description of the verdict can be. *)
Lemma descriptions_elem f info ds d :
  descriptions f info = Ok ds ->
  d ∈ ds <->
    (instance_info info <> ∅ /\ cpu_error info <> []
     /\ d = msg_invalid_cpus (cpu_error info))
    \/ (pval_of_cpus (system f) <> dict_get (default ∅ (grub f)) "isolcpus"
        /\ d = msg_not_eq_grub)
    \/ (pval_of_cpus (system f) <> dict_get (default ∅ (cmdline f)) "isolcpus"
        /\ d = msg_not_eq_cmdline)
    \/ (list_truthy (system f) = false /\ d = msg_no_isolated)
    \/ (cpu_count_logical f <> cpu_count_physical f /\ d = msg_cpu_count)
    \/ (check_hypertrading (smt_active f) = Ok true /\ d = msg_smt_active)
    \/ (exists s, check_parameters (default ∅ (cmdline f))
                    (assoc_get (cmdb_primary_gr f) REQ_PARAM_FOR_GR) = Some s
                  /\ d = "Cmdline " +:+ s)
    \/ (exists s, check_parameters (default ∅ (grub f))
                    (assoc_get (cmdb_primary_gr f) REQ_PARAM_FOR_GR) = Some s
                  /\ d = "Grub " +:+ s).
Proof.
  unfold descriptions.
  destruct (grub f) as [grub_d|]; [|done].
  destruct (cmdline f) as [cmdline_d|]; [|done].
  destruct (check_hypertrading (smt_active f)) as [ht|e]; [|done].
  simpl. intros [= <-].
  rewrite !elem_of_app, !elem_of_when, !elem_of_opt_list.
  rewrite !negb_true_iff, !bool_decide_eq_false.
  assert (d ∈ (if negb (bool_decide (instance_info info = ∅))
               then match cpu_error info with
                    | [] => []
                    | s :: l => [msg_invalid_cpus (s :: l)]
                    end
               else [])
          <-> instance_info info <> ∅ /\ cpu_error info <> []
              /\ d = msg_invalid_cpus (cpu_error info)) as ->.
  { case_bool_decide as Hi; simpl.
    - split; [by intros ?%not_elem_of_nil|by intros [? _]].
    - destruct (cpu_error info) as [|e l].
      + split; [by intros ?%not_elem_of_nil|by intros (_ & ? & _)].
      + rewrite list_elem_of_singleton. split; [done|by intros (_ & _ & ?)]. }
  assert (Ok ht = Ok true <-> ht = true) as Hht by (split; congruence).
  rewrite Hht. tauto.
Qed.

Lemma msg_invalid_head l : exists rest, msg_invalid_cpus l = String "I" rest.
Proof. by eexists. Qed.

(** Every description starts with a character that is neither a
    semicolon nor [O]. *)
Lemma descriptions_head f info ds :
  descriptions f info = Ok ds ->
  Forall (fun d => exists c rest,
            d = String c rest /\ c <> ";"%char /\ c <> "O"%char) ds.
Proof.
  intros Hds. apply Forall_forall. intros d Hd.
  apply (descriptions_elem f info ds d Hds) in Hd.
  destruct Hd as [(_ & _ & ->)|[[_ ->]|[[_ ->]|[[_ ->]|[[_ ->]|[[_ ->]|
    [(s & _ & ->)|(s & _ & ->)]]]]]]];
    eexists _, _; (split; [reflexivity|]); by split.
Qed.

Lemma string_app_cons a (s t : string) : String a s +:+ t = String a (s +:+ t).
Proof. reflexivity. Qed.

Lemma string_app_nil_l (t : string) : "" +:+ t = t.
Proof. reflexivity. Qed.

Lemma string_app_assoc (s1 s2 s3 : string) :
  (s1 +:+ s2) +:+ s3 = s1 +:+ (s2 +:+ s3).
Proof.
  induction s1 as [|a s1 IH]; [done|]. by rewrite !string_app_cons, IH.
Qed.

Lemma string_length_app (s1 s2 : string) :
  String.length (s1 +:+ s2) = (String.length s1 + String.length s2)%nat.
Proof.
  induction s1 as [|a s1 IH]; [done|].
  rewrite string_app_cons. simpl. by rewrite IH.
Qed.

Lemma substring_app_prefix (s t : string) :
  String.substring 0 (String.length s) (s +:+ t) = s.
Proof.
  induction s as [|a s IH].
  - rewrite string_app_nil_l. by destruct t.
  - rewrite string_app_cons. simpl. by rewrite IH.
Qed.

(** [err_check] is the descriptions joined by ["; "], with one more
    ["; "] at the end. *)
Lemma err_check_join ds :
  ds <> [] ->
  String.concat "" (map (fun d => d +:+ "; ") ds) = PyStr.join "; " ds +:+ "; ".
Proof.
  intros Hne. induction ds as [|d ds IH]; [done|].
  destruct ds as [|d' ds]; [done|].
  change (String.concat "" (map (fun d => d +:+ "; ") (d :: d' :: ds)))
    with ((d +:+ "; ") +:+ "" +:+
          String.concat "" (map (fun d => d +:+ "; ") (d' :: ds))).
  change (PyStr.join "; " (d :: d' :: ds))
    with (d +:+ "; " +:+ PyStr.join "; " (d' :: ds)).
  rewrite IH by done. rewrite string_app_nil_l. by rewrite !string_app_assoc.
Qed.

Lemma render_join zabbix ds :
  ds <> [] ->
  render zabbix ds
  = if zabbix then "Error: " +:+ PyStr.join "; " ds
    else replace_from "; " (String PyStr.newline "") 0 (PyStr.join "; " ds).
Proof.
  intros Hne. unfold render. rewrite err_check_join by done.
  rewrite bool_decide_eq_false_2.
  2:{ by destruct (PyStr.join "; " ds). }
  cbn [negb]. rewrite string_length_app. cbn [String.length].
  replace (String.length (PyStr.join "; " ds) + 2 - 2)%nat
    with (String.length (PyStr.join "; " ds)) by lia.
  by rewrite substring_app_prefix.
Qed.

Lemma join_head sep c rest ds :
  exists body, PyStr.join sep (String c rest :: ds) = String c body.
Proof.
  destruct ds as [|d ds].
  - by exists rest.
  - by exists (rest +:+ sep +:+ PyStr.join sep (d :: ds)).
Qed.

Lemma render_not_OK zabbix d ds :
  (exists c rest, d = String c rest /\ c <> ";"%char /\ c <> "O"%char) ->
  render zabbix (d :: ds) <> "OK".
Proof.
  intros (c & rest & -> & Hc1 & Hc2). rewrite render_join by done.
  destruct zabbix; [done|].
  destruct (join_head "; " c rest ds) as [body ->].
  cbn [replace_from String.prefix].
  destruct (ascii_dec ";" c) as [<-|_]; [done|].
  intros [= -> _]. done.
Qed.

Lemma replace_from_no_match c old new s :
  PyStr.contains c s = false ->
  replace_from (String c old) new 0 s = s.
Proof.
  induction s as [|a s IH]; [done|]. cbn [PyStr.contains].
  destruct (PyStr.ascii_eqb a c) eqn:E; [done|]. intros H.
  cbn [replace_from String.prefix].
  destruct (ascii_dec c a) as [->|Hne].
  - by rewrite ascii_eqb_refl in E.
  - by rewrite IH.
Qed.

Lemma replace_from_match new rest :
  replace_from "; " new 0 (String ";" (String " " rest))
  = new +:+ replace_from "; " new 0 rest.
Proof.
  assert (String.prefix "; " (String ";" (String " " rest)) = true) as H
    by (destruct rest; reflexivity).
  change (replace_from "; " new 0 (String ";" (String " " rest)))
    with (if String.prefix "; " (String ";" (String " " rest))
          then new +:+ replace_from "; " new 0 rest
          else String ";" (replace_from "; " new 0 (String " " rest))).
  by rewrite H.
Qed.

Lemma replace_from_at_sep new d rest :
  PyStr.contains ";" d = false ->
  replace_from "; " new 0 (d +:+ "; " +:+ rest)
  = d +:+ new +:+ replace_from "; " new 0 rest.
Proof.
  induction d as [|a d IH].
  - intros _. rewrite !string_app_nil_l. apply replace_from_match.
  - cbn [PyStr.contains].
    destruct (PyStr.ascii_eqb a ";") eqn:E; [done|]. intros H.
    rewrite (string_app_cons a d), (string_app_cons a d).
    change (replace_from "; " new 0 (String a (d +:+ "; " +:+ rest)))
      with (if String.prefix "; " (String a (d +:+ "; " +:+ rest))
            then new +:+ replace_from "; " new 1 (d +:+ "; " +:+ rest)
            else String a (replace_from "; " new 0 (d +:+ "; " +:+ rest))).
    assert (String.prefix "; " (String a (d +:+ "; " +:+ rest)) = false) as ->.
    { cbn [String.prefix]. destruct (ascii_dec ";" a) as [<-|Hne]; [|done].
      by rewrite ascii_eqb_refl in E. }
    by rewrite IH.
Qed.

Lemma replace_from_join new ds :
  Forall (fun d => PyStr.contains ";" d = false) ds ->
  replace_from "; " new 0 (PyStr.join "; " ds) = PyStr.join new ds.
Proof.
  induction 1 as [|d ds Hd Hds IH]; [done|].
  destruct ds as [|d' ds].
  - by apply replace_from_no_match.
  - change (PyStr.join "; " (d :: d' :: ds))
      with (d +:+ "; " +:+ PyStr.join "; " (d' :: ds)).
    rewrite replace_from_at_sep by done. by rewrite IH.
Qed.

Lemma fold_insert_not_empty (instances : list (string * xml)) (CPUS : list CpuInfo) :
  forall acc : gmap string (gmap string (list Z)),
  acc <> ∅ ->
  fold_left (fun acc inst =>
               let '(bs, info) := get_instance_info inst.1 CPUS in
               <[bs := info]> acc) instances acc <> ∅.
Proof.
  induction instances as [|inst instances IH]; intros acc Hacc; [done|].
  simpl. apply IH. apply insert_non_empty.
Qed.

Lemma info_errors_loop_nil cpus_err CPUS :
  info_errors_loop [] cpus_err CPUS = (CPUS, Ok cpus_err).
Proof. done. Qed.

(** When [get_info_about_cpus] returns errors it returns a non-empty
    [instance_info]. *)
Lemma get_info_about_cpus_errors instances CPUS CPUS' info :
  get_info_about_cpus instances CPUS = (CPUS', Ok info) ->
  cpu_error info <> [] -> instance_info info <> ∅.
Proof.
  unfold get_info_about_cpus, mbind.
  destruct instances as [|inst instances].
  - simpl. unfold mret. intros [= _ <-]. done.
  - destruct (info_errors_loop (inst :: instances) [] CPUS)
      as [CPUS1 [errs|e]]; [|done].
    intros [= _ <-] _. cbn [instance_info fold_left].
    apply fold_insert_not_empty.
    destruct (get_instance_info inst.1 CPUS1). apply insert_non_empty.
Qed.

End check_more.

(** X15. Whenever the descriptions of the verdict are computed, the
    one for a server without isolated CPUs is among them exactly when
    the kernel reports no isolated CPU, whatever the other sources
    say. *)
Theorem X15_no_isolated_description (f : facts) (info : cpus_info)
    (ds : list string)
    (Hds : descriptions f info = Ok ds) :
  msg_no_isolated ∈ ds <-> list_truthy (system f) = false.
Proof.
  rewrite (descriptions_elem f info ds _ Hds). split.
  - intros [(_ & _ & H)|[[_ H]|[[_ H]|[[H _]|[[_ H]|[[_ H]|
      [(s & _ & H)|(s & _ & H)]]]]]]]; done.
  - intros H. do 3 right. by left.
Qed.

Lemma X15_no_isolated_description_witness :
  msg_no_isolated ∈ [msg_not_eq_grub; msg_not_eq_cmdline; msg_no_isolated]
  <-> list_truthy (@None (list Z)) = false.
Proof.
  pose (policy := default [] (assoc_get "default" REQ_PARAM_FOR_GR)).
  pose (g := list_to_map (("isolcpus", PList [2; 3]) :: policy) : gmap string pval).
  apply (X15_no_isolated_description
           {| grub := Some g; cmdline := Some g; system := None;
              instances := []; running_instances := [];
              cpu_count_logical := Some 8; cpu_count_physical := Some 8;
              smt_active := "0"; cmdb_primary_gr := "default" |}
           {| instance_info := ∅; cpu_error := [] |}).
  vm_compute. reflexivity.
Defined.



(** X17. The errors that [get_info_about_cpus] returns always reach the
    verdict: whenever it returns and the descriptions are computed from
    its result, the description of the invalid CPUs is among them
    exactly when the list of errors is not empty. *)
Theorem X17_invalid_cpus_reported (f : facts) (CPUS CPUS' : list CpuInfo)
    (info : cpus_info) (ds : list string)
    (Hinfo : get_info_about_cpus (instances f) CPUS = (CPUS', Ok info))
    (Hds : descriptions f info = Ok ds) :
  msg_invalid_cpus (cpu_error info) ∈ ds <-> cpu_error info <> [].
Proof.
  rewrite (descriptions_elem f info ds _ Hds). split.
  - intros [(_ & H & _)|[[_ H]|[[_ H]|[[_ H]|[[_ H]|[[_ H]|
      [(s & _ & H)|(s & _ & H)]]]]]]]; done.
  - intros H. left. split; [|done]. by eapply get_info_about_cpus_errors.
Qed.

Lemma X17_invalid_cpus_reported_witness :
  let e := "BS1: ['TrashCPU cpu 7 doesnt exist']" in
  msg_invalid_cpus [e] ∈ [msg_invalid_cpus [e]] <-> [e] <> [].
Proof.
  intros e.
  pose (policy := default [] (assoc_get "default" REQ_PARAM_FOR_GR)).
  pose (g := list_to_map (("isolcpus", PList [2; 3]) :: policy) : gmap string pval).
  pose (CPUS' := [appended (CpuInfo_init 0) "TrashCPU" ["BS1"]; CpuInfo_init 1]).
  apply (X17_invalid_cpus_reported
           {| grub := Some g; cmdline := Some g; system := Some [2; 3];
              instances :=
                [("BS1", Element "Runtime" []
                           [Element "TrashCPU" [("Cores", "0,7")] []])];
              running_instances := ["BS1"];
              cpu_count_logical := Some 8; cpu_count_physical := Some 8;
              smt_active := "0"; cmdb_primary_gr := "default" |}
           [CpuInfo_init 0; CpuInfo_init 1] CPUS'
           {| instance_info := <["BS1" := (get_instance_info "BS1" CPUS').2]> ∅;
              cpu_error := [e] |}
           [msg_invalid_cpus [e]]).
  - reflexivity.
  - vm_compute. reflexivity.
Defined.

(** X18. Whenever the descriptions are computed, the check prints [OK]
    exactly when there is none. *)
Theorem X18_ok_iff_no_description (zabbix : bool) (f : facts)
    (info : cpus_info) (ds : list string)
    (Hds : descriptions f info = Ok ds) :
  render zabbix ds = "OK" <-> ds = [].
Proof.
  split; [|by intros ->].
  intros Hok. destruct ds as [|d ds]; [done|].
  exfalso. apply (render_not_OK zabbix d ds); [|done].
  pose proof (descriptions_head f info _ Hds) as Hh.
  by inversion Hh.
Qed.

Lemma X18_ok_iff_no_description_witness :
  render true [msg_not_eq_cmdline; msg_smt_active] = "OK"
  <-> [msg_not_eq_cmdline; msg_smt_active] = [].
Proof.
  pose (policy := default [] (assoc_get "default" REQ_PARAM_FOR_GR)).
  pose (g := list_to_map (("isolcpus", PList [2; 3]) :: policy) : gmap string pval).
  pose (c := list_to_map (("isolcpus", PList [2; 4]) :: policy) : gmap string pval).
  apply (X18_ok_iff_no_description true
           {| grub := Some g; cmdline := Some c; system := Some [2; 3];
              instances := []; running_instances := [];
              cpu_count_logical := Some 8; cpu_count_physical := Some 8;
              smt_active := "1"; cmdb_primary_gr := "default" |}
           {| instance_info := ∅; cpu_error := [] |}).
  vm_compute. reflexivity.
Defined.

(** X19. With at least one description, the check for Zabbix prints
    [Error: ] followed by the descriptions joined by ["; "]; the other
    check prints the descriptions one per line, provided none holds a
    semicolon. *)
Theorem X19_render_descriptions (ds : list string)
    (Hne : ds <> [])
    (Hsemi : Forall (fun d => PyStr.contains ";" d = false) ds) :
  render true ds = "Error: " +:+ PyStr.join "; " ds
  /\ render false ds = PyStr.join (String PyStr.newline "") ds.
Proof.
  rewrite !render_join by done. split; [done|].
  by apply replace_from_join.
Qed.

Lemma X19_render_descriptions_witness :
  render true [msg_not_eq_grub; msg_no_isolated]
  = "Error: " +:+ PyStr.join "; " [msg_not_eq_grub; msg_no_isolated]
  /\ render false [msg_not_eq_grub; msg_no_isolated]
     = PyStr.join (String PyStr.newline "") [msg_not_eq_grub; msg_no_isolated].
Proof.
  apply (X19_render_descriptions [msg_not_eq_grub; msg_no_isolated]).
  - discriminate.
  - repeat constructor.
Defined.

(** ** Boot parameters *)

Section parameters_more.

Lemma cpu_sorted_raises data_str e : cpu_sorted data_str = Raise e -> e = ValueError.
Proof.
  unfold cpu_sorted. intros H.
  destruct (cpu_sorted_loop_cases (tokens data_str) []) as [[l Hl]|Hv];
    unfold tokens in *; congruence.
Qed.

Lemma refactor_parameter_raises res parameter e :
  refactor_parameter res parameter = Raise e ->
  e = ValueError /\ names_isolcpus parameter = true.
Proof.
  unfold refactor_parameter, names_isolcpus.
  destruct (negb (bool_decide (parameter = ""))); [|done].
  destruct (PyStr.contains "=" parameter); [|done].
  case_bool_decide as Hk; [|by case_bool_decide].
  destruct (negb (bool_decide (_ = ""))); [|done].
  destruct (cpu_sorted _) as [cpus|e'] eqn:Hc; [done|].
  simpl. intros [= <-]. split; [by eapply cpu_sorted_raises|done].
Qed.

Lemma refactor_loop_raises parameters : forall res e,
  refactor_loop parameters res = Raise e ->
  e = ValueError /\ Exists (fun p => names_isolcpus p = true) parameters.
Proof.
  induction parameters as [|p parameters IH]; intros res e; simpl; [done|].
  destruct (refactor_parameter res p) as [res'|e'] eqn:Hp; simpl.
  - intros [-> Hex]%IH. split; [done|by right].
  - intros [= <-]. apply refactor_parameter_raises in Hp as [-> Hn].
    split; [done|by left].
Qed.





Lemma policy_of_req group :
  match assoc_get group REQ_PARAM_FOR_GR with
  | Some (kv :: kvs) => kv :: kvs
  | _ => default [] (assoc_get "default" REQ_PARAM_FOR_GR)
  end = policy_of group.
Proof.
  unfold policy_of.
  destruct (decide (group = "trade_roxana")) as [->|Hr]; [reflexivity|].
  rewrite (bool_decide_eq_false_2 (group = "trade_roxana")) by done.
  cbn [assoc_get REQ_PARAM_FOR_GR].
  rewrite (bool_decide_eq_false_2 ("trade_roxana" = group)) by done.
  by case_bool_decide.
Qed.

End parameters_more.

(** X20. [refactor_parameters] raises only [ValueError], and only when
    the text holds a token [isolcpus=...]: a text without such a token
    is always parsed. *)
Theorem X20_refactor_parameters_raises (data : string) (e : exn)
    (Hraise : refactor_parameters data = Raise e) :
  e = ValueError
  /\ Exists (fun p => names_isolcpus p = true) (PyStr.split " " data).
Proof. by eapply refactor_loop_raises. Qed.

Lemma X20_refactor_parameters_raises_witness :
  ValueError = ValueError
  /\ Exists (fun p => names_isolcpus p = true)
            (PyStr.split " " "idle=poll isolcpus=nohz,domain,2-3 nosmt").
Proof.
  apply (X20_refactor_parameters_raises
           "idle=poll isolcpus=nohz,domain,2-3 nosmt" ValueError).
  reflexivity.
Defined.



(** X22. [check_parameters] with the policy looked up for a host group
    reports nothing exactly when the dictionary binds every key of the
    policy of [trade_roxana], for that group, or of the default policy,
    for every other group, to its required value. *)
Theorem X22_check_parameters_policy (param_dict : gmap string pval)
    (group : string) :
  check_parameters param_dict (assoc_get group REQ_PARAM_FOR_GR) = None
  <-> Forall (fun kv => param_dict !! kv.1 = Some kv.2) (policy_of group).
Proof.
  unfold check_parameters. rewrite policy_of_req.
  assert (Forall (fun kv : string * pval => kv.2 <> PNone) (policy_of group))
    as Hnone.
  { unfold policy_of. case_bool_decide; repeat constructor; done. }
  induction (policy_of group) as [|[k v] policy IH]; simpl.
  - split; [constructor|done].
  - inversion Hnone as [|? ? Hv Hnone']; subst. simpl in Hv.
    rewrite filter_cons, Forall_cons. simpl.
    assert (v = dict_get param_dict k <-> param_dict !! k = Some v) as Hkv.
    { unfold dict_get. destruct (param_dict !! k) as [v'|]; simpl.
      - split; congruence.
      - split; [done|intros [=]]. }
    case_decide as Hd.
    + split; [done|]. intros [Hk _]. apply Hkv in Hk. done.
    + rewrite IH by done. split; [|by intros [_ ?]].
      intros H. split; [|done]. apply Hkv.
      by destruct (decide (v = dict_get param_dict k)).
Qed.
